(** * schedule-optimizer: the course scheduler of [dataParser.py] and [app.py]

    A shallow embedding of [ScheduleOptimizer] (dataParser.py) and of the
    [/optimize] handler (app.py), with the parts of Python's [str],
    [datetime] and of the [constraint] package (python-constraint) that the
    two files call.

    Conventions.
    - A Python [str] is a [string], a [list] of them a [list string].
    - A [datetime] on the default date 1900-01-01 is the number of minutes
      since that day's midnight, an integer.
    - A [dict] is an association list in insertion order.
    - A call that can raise returns a [result].
    - The input is typed: a course record has all six fields, an id is a
      string, [meeting_days] and [meeting_times] are lists of strings, and
      the request names a list of ids. What the two files do on other JSON
      (a missing key, a field of another type, a file that is no JSON) is
      outside the model, and so are the errors of the operating system on
      [open].
    - Characters are bytes: the digits and the white space of [strptime]
      and [str.strip] are the ASCII ones. *)

From Stdlib Require Import String Ascii List ZArith Bool Lia Permutation.
Import ListNotations.
Open Scope string_scope.
Open Scope list_scope.

(** ** Exceptions *)

Inductive exn : Type :=
| ValueError
| FileNotFoundError
| StopIteration.

Inductive result (A : Type) : Type :=
| Return (a : A)
| Raise (e : exn).

Arguments Return {A} a.
Arguments Raise {A} e.

Definition bind {A B : Type} (m : result A) (k : A -> result B) : result B :=
  match m with
  | Return a => k a
  | Raise e => Raise e
  end.

Notation "'do' x <- m ; k" := (bind m (fun x => k))
  (at level 10, x name, m at level 100, k at level 200).

(** ** Python strings *)

Module Str.

(** [sub in s] for two strings. *)
Fixpoint contains (sub s : string) : bool :=
  prefix sub s ||
  match s with
  | EmptyString => false
  | String _ s' => contains sub s'
  end.

(** [s.split(sep)] for a one-character separator: the pieces between the
    separators, one more than there are separators. *)
Fixpoint split (sep : ascii) (s : string) : list string :=
  match s with
  | EmptyString => [EmptyString]
  | String c s' =>
      if Ascii.eqb c sep then EmptyString :: split sep s'
      else match split sep s' with
           | piece :: pieces => String c piece :: pieces
           | [] => [String c EmptyString]
           end
  end.

(** The characters [str.isspace] accepts among the first 128. *)
Definition isspace (c : ascii) : bool :=
  let n := nat_of_ascii c in
  ((9 <=? n) && (n <=? 13) || (28 <=? n) && (n <=? 32))%nat.

Fixpoint lstrip (s : string) : string :=
  match s with
  | EmptyString => EmptyString
  | String c s' => if isspace c then lstrip s' else s
  end.

Fixpoint rstrip (s : string) : string :=
  match s with
  | EmptyString => EmptyString
  | String c s' =>
      match rstrip s' with
      | EmptyString => if isspace c then EmptyString else String c EmptyString
      | r => String c r
      end
  end.

(** [s.strip()] *)
Definition strip (s : string) : string := rstrip (lstrip s).

(** [s.replace(c, new)] for a one-character [c]. *)
Fixpoint replace (c : ascii) (new : string) (s : string) : string :=
  match s with
  | EmptyString => EmptyString
  | String x s' =>
      if Ascii.eqb x c then new ++ replace c new s'
      else String x (replace c new s')
  end.

(** [x in l] for a list of strings. *)
Definition mem (x : string) (l : list string) : bool :=
  existsb (String.eqb x) l.

End Str.

(** ** [datetime]: [strptime], [strftime], [timedelta] *)

Module Datetime.

Local Open Scope Z_scope.

(** Minutes since 1900-01-01 00:00, the date [strptime] gives a time
    without one. *)
Definition datetime : Type := Z.

Definition hour (t : datetime) : Z := (t / 60) mod 24.
Definition minute (t : datetime) : Z := t mod 60.

Definition digit_val (c : ascii) : Z := Z.of_nat (nat_of_ascii c) - 48.

Definition in_range (lo hi : nat) (c : ascii) : bool :=
  let n := nat_of_ascii c in ((lo <=? n) && (n <=? hi))%nat.

(** The first alternative of a regular expression that leads to a match. *)
Fixpoint first_match {A B : Type} (k : A -> option B) (alts : list A)
  : option B :=
  match alts with
  | [] => None
  | a :: alts' =>
      match k a with
      | Some b => Some b
      | None => first_match k alts'
      end
  end.

(** One alternative made of two characters, the first in [lo1..hi1], the
    second in [lo2..hi2]: its value and the rest of the input. *)
Definition two_chars (lo1 hi1 lo2 hi2 : nat) (s : string)
  : list (Z * string) :=
  match s with
  | String a (String b r) =>
      if in_range lo1 hi1 a && in_range lo2 hi2 b
      then [(10 * digit_val a + digit_val b, r)] else []
  | _ => []
  end.

Definition one_char (lo hi : nat) (s : string) : list (Z * string) :=
  match s with
  | String a r => if in_range lo hi a then [(digit_val a, r)] else []
  | _ => []
  end.

(** [%H]: 2[0-3] | [0-1]\d | \d *)
Definition directive_H (s : string) : list (Z * string) :=
  two_chars 50 50 48 51 s ++ two_chars 48 49 48 57 s ++ one_char 48 57 s.

(** [%I]: 1[0-2] | 0[1-9] | [1-9] *)
Definition directive_I (s : string) : list (Z * string) :=
  two_chars 49 49 48 50 s ++ two_chars 48 48 49 57 s ++ one_char 49 57 s.

(** [%M]: [0-5]\d | \d *)
Definition directive_M (s : string) : list (Z * string) :=
  two_chars 48 53 48 57 s ++ one_char 48 57 s.

Definition lower (c : ascii) : ascii :=
  if in_range 65 90 c then ascii_of_nat (nat_of_ascii c + 32) else c.

(** [%p]: am | pm, letter case ignored; [true] is pm. *)
Definition directive_p (s : string) : list (bool * string) :=
  match s with
  | String a (String b r) =>
      if Ascii.eqb (lower b) "m"%char then
        if Ascii.eqb (lower a) "a"%char then [(false, r)]
        else if Ascii.eqb (lower a) "p"%char then [(true, r)]
        else []
      else []
  | _ => []
  end.

Definition literal (c : ascii) (s : string) : option string :=
  match s with
  | String a r => if Ascii.eqb a c then Some r else None
  | _ => None
  end.

Definition at_end {A : Type} (a : A) (s : string) : option A :=
  match s with
  | EmptyString => Some a
  | _ => None
  end.

(** [datetime.strptime(s, "%H:%M")]; [None] stands for the ValueError. *)
Definition strptime_HM (s : string) : option datetime :=
  first_match (fun '(h, r1) =>
    match literal ":" r1 with
    | Some r2 => first_match (fun '(m, r3) => at_end (60 * h + m) r3)
                   (directive_M r2)
    | None => None
    end) (directive_H s).

(** The 24-hour value of a 12-hour clock reading. *)
Definition hour24 (h : Z) (pm : bool) : Z :=
  if pm then (if h =? 12 then 12 else h + 12)
  else (if h =? 12 then 0 else h).

(** [datetime.strptime(s, "%I:%M%p")]; [None] stands for the ValueError. *)
Definition strptime_IMp (s : string) : option datetime :=
  first_match (fun '(h, r1) =>
    match literal ":" r1 with
    | Some r2 =>
        first_match (fun '(m, r3) =>
          first_match (fun '(pm, r4) => at_end (60 * hour24 h pm + m) r4)
            (directive_p r3))
          (directive_M r2)
    | None => None
    end) (directive_I s).

Definition digit_char (n : Z) : ascii := ascii_of_nat (48 + Z.to_nat n).

Definition two_digits (n : Z) : string :=
  String (digit_char (n / 10)) (String (digit_char (n mod 10)) EmptyString).

(** [t.strftime("%H:%M")] *)
Definition strftime_HM (t : datetime) : string :=
  two_digits (hour t) ++ ":" ++ two_digits (minute t).

(** [t + datetime.timedelta(minutes=m)] *)
Definition add_minutes (t : datetime) (m : Z) : datetime := t + m.

End Datetime.

(** ** Values and closures *)

(** The value of a variable: the tuple [(day, time)] of dataParser.py:53. *)
Definition value : Type := (string * string)%type.

(** The local variables of dataParser.py that a lambda reads from the
    function enclosing it. There is one: [valid_days] of
    [add_day_constraints], named in the lambda of line 110. Python looks the
    name up when the lambda is called, so the lambda sees what the name is
    bound to at that time. The lambdas of lines 64 and 78 read no such
    variable: [s=start, e=end] are defaults, evaluated where the lambda is
    made. Before its first binding the cell is written [[]]; no lambda exists
    then. *)
Record cells : Type := { valid_days : list string }.

(** A Python function of positional arguments that returns a truth value,
    called with the cells as they are at the time of the call. A call with
    another number of arguments than the lambda has parameters would raise a
    TypeError; every constraint is added with as many variables as its lambda
    has parameters, and the lambdas below answer [false] there. *)
Definition callable : Type := cells -> list value -> bool.

(** ** The [constraint] package

    dataParser.py:2 imports [Problem] from python-constraint; the package is
    not among the repository's sources. [Problem] is modelled here as the
    package documents it: [addVariable] refuses a variable added twice and an
    empty domain with a ValueError, [addConstraint] wraps a function into a
    [FunctionConstraint], [getSolution] prunes every domain by the
    constraints on that single variable, answers [None] when there is no
    variable or a domain became empty, and otherwise asks its solver. *)

Module Constraint.

Definition Domain : Type := list value.

(** The dict from variable to value, in insertion order. *)
Definition assignments : Type := list (string * value).

Record Problem : Type := {
  _variables : list (string * Domain);
  _constraints : list (callable * list string)
}.

(** [Problem()] *)
Definition Problem_new : Problem :=
  {| _variables := []; _constraints := [] |}.

Definition addVariable (self : Problem) (variable : string) (domain : Domain)
  : result Problem :=
  if Str.mem variable (map fst (_variables self)) then Raise ValueError
  else match domain with
       | [] => Raise ValueError
       | _ => Return {| _variables := _variables self ++ [(variable, domain)];
                        _constraints := _constraints self |}
       end.

Definition addConstraint (self : Problem) (constraint : callable)
  (variables : list string) : Problem :=
  {| _variables := _variables self;
     _constraints := _constraints self ++ [(constraint, variables)] |}.

(** [a.get(x)] *)
Fixpoint get (a : assignments) (x : string) : option value :=
  match a with
  | [] => None
  | (y, v) :: a' => if String.eqb x y then Some v else get a' x
  end.

(** The arguments a constraint's function is called with: the values of its
    variables, or [None] when one of them has no value yet. *)
Fixpoint parms (a : assignments) (variables : list string)
  : option (list value) :=
  match variables with
  | [] => Some []
  | x :: xs =>
      match get a x, parms a xs with
      | Some v, Some vs => Some (v :: vs)
      | _, _ => None
      end
  end.

(** A constraint as the solver gets it: the function and its variables. *)
Definition constraint : Type := ((list value -> bool) * list string)%type.

(** [FunctionConstraint.__call__]: the function on the variables' values;
    true as long as a variable has no value. *)
Definition call (c : constraint) (a : assignments) : bool :=
  match parms a (snd c) with
  | Some ps => fst c ps
  | None => true
  end.

(** [Constraint.preProcess]: a constraint on one variable removes from that
    variable's domain the values it rejects. *)
Definition preProcess (c : constraint) (domains : list (string * Domain))
  : list (string * Domain) :=
  match snd c with
  | [variable] =>
      map (fun vd =>
             if String.eqb (fst vd) variable
             then (fst vd,
                   filter (fun value => call c [(variable, value)]) (snd vd))
             else vd) domains
  | _ => domains
  end.

Definition is_unary (c : constraint) : bool :=
  (length (snd c) =? 1)%nat.

Definition is_empty (vd : string * Domain) : bool :=
  match snd vd with
  | [] => true
  | _ => false
  end.

(** A constraint of the problem as [_getArgs] hands it on: its function,
    called against the cells [h], and its variables, all of them when none
    was given. *)
Definition resolve (h : cells) (allvariables : list string)
  (cv : callable * list string) : constraint :=
  (fst cv h,
   match snd cv with
   | [] => allvariables
   | variables => variables
   end).

(** [Problem._getArgs]: the pruned domains and the constraints left for the
    search, [None] when a domain is empty. *)
Definition _getArgs (h : cells) (self : Problem)
  : option (list (string * Domain) * list constraint) :=
  let allvariables := map fst (_variables self) in
  let constraints := map (resolve h allvariables) (_constraints self) in
  let domains :=
    fold_left (fun d c => preProcess c d) constraints (_variables self) in
  if existsb is_empty domains then None
  else Some (domains, filter (fun c => negb (is_unary c)) constraints).

(** A solver: [Solver.getSolution(domains, constraints, vconstraints)]. *)
Record Solver : Type := {
  solver_getSolution :
    list (string * Domain) -> list constraint -> option assignments
}.

(** [Problem.getSolution] *)
Definition getSolution (solver : Solver) (h : cells) (self : Problem)
  : option assignments :=
  match _getArgs h self with
  | None => None
  | Some (domains, constraints) =>
      match domains with
      | [] => None
      | _ => solver_getSolution solver domains constraints
      end
  end.

(** What a solver's answer is: every variable has one value, of its domain,
    and every constraint holds. *)
Record is_solution (domains : list (string * Domain))
  (constraints : list constraint) (a : assignments) : Prop := {
  sol_keys : forall v, In v (map fst a) <-> In v (map fst domains);
  sol_nodup : NoDup (map fst a);
  sol_domain : forall v x, In (v, x) a ->
               exists d, In (v, d) domains /\ In x d;
  sol_constraints : forall c, In c constraints -> call c a = true
}.

(** What [_getArgs] hands to a solver: distinct variables, and constraints
    over some of them. *)
Definition well_formed (domains : list (string * Domain))
  (constraints : list constraint) : Prop :=
  NoDup (map fst domains) /\
  forall c, In c constraints ->
            snd c <> [] /\ incl (snd c) (map fst domains).

(** The contract of a solver that searches systematically, as the package's
    default [BacktrackingSolver] does: an answer is a solution, and [None]
    means there is none. The package's solvers differ in the order they try
    variables and values in; the properties below hold for every solver that
    keeps this contract. *)
Definition lawful (solver : Solver) : Prop :=
  forall domains constraints,
    well_formed domains constraints ->
    match solver_getSolution solver domains constraints with
    | Some a => is_solution domains constraints a
    | None => forall a, ~ is_solution domains constraints a
    end.

(** The constraints that mention a variable. *)
Definition vconstraints (constraints : list constraint) (variable : string)
  : list constraint :=
  filter (fun c => Str.mem variable (snd c)) constraints.

(** Modelled from the spec: the backtracking search engine (section 4.4),
    which the sources take from the package. Chronological backtracking: the
    variables in the order they were added, the values in the order of the
    domain; a value is kept when every constraint between the variable and
    the variables bound before it holds, and the search goes on with the next
    variable; when the values are used up it goes back to the variable
    before. *)
Fixpoint search (constraints : list constraint)
  (todo : list (string * Domain)) (a : assignments) : option assignments :=
  match todo with
  | [] => Some a
  | (variable, domain) :: todo' =>
      (fix try (values : list value) : option assignments :=
         match values with
         | [] => None
         | x :: values' =>
             let a' := a ++ [(variable, x)] in
             if forallb (fun c => call c a') (vconstraints constraints variable)
             then match search constraints todo' a' with
                  | Some s => Some s
                  | None => try values'
                  end
             else try values'
         end) domain
  end.

Definition BacktrackingSolver : Solver :=
  {| solver_getSolution := fun domains constraints =>
                             search constraints domains [] |}.

End Constraint.

(** ** dataParser.py *)

Import Datetime Constraint.

(** A course record of the JSON catalog. *)
Record Course : Type := {
  id : string;
  course_dept : string;
  course_code : string;
  course_title : string;
  meeting_days : list string;
  meeting_times : list string
}.

(** The JSON files by name, each with what [json.load] reads from it. *)
Definition filesystem : Type := list (string * list Course).

Fixpoint read (fs : filesystem) (name : string) : option (list Course) :=
  match fs with
  | [] => None
  | (n, data) :: fs' => if String.eqb name n then Some data else read fs' name
  end.

Definition write (fs : filesystem) (name : string) (data : list Course)
  : filesystem :=
  (name, data) :: fs.

Record ScheduleOptimizer : Type := {
  problem : Problem;
  courses : list Course;
  time_slots : list string;
  days : list string
}.

(** Lines 13-17. *)
Definition _load_data (fs : filesystem) (json_file : string)
  : result (list Course) :=
  match read fs json_file with
  | Some data =>
      Return (filter (fun course =>
                        negb (Str.mem "TBA" (meeting_times course))) data)
  | None => Raise FileNotFoundError
  end.

(** The loop of lines 27-29, with a bound on its iterations. *)
Fixpoint while_slots (fuel : nat) (current end_ : datetime)
  (slots : list string) : list string :=
  match fuel with
  | O => slots
  | S fuel' =>
      if (current <=? end_)%Z
      then while_slots fuel' (add_minutes current 30) end_
             (slots ++ [strftime_HM current])
      else slots
  end.

(** Lines 19-30. The loop adds 30 minutes each time round, so it leaves
    within [end - start] iterations and one more. *)
Definition _generate_time_slots : list string :=
  match strptime_HM "8:00", strptime_HM "21:00" with
  | Some start, Some end_ =>
      while_slots (S (Z.to_nat (end_ - start))) start end_ []
  | _, _ => []
  end.

(** Lines 7-11. *)
Definition __init__ (fs : filesystem) (json_file : string)
  : result ScheduleOptimizer :=
  do courses <- _load_data fs json_file;
  Return {| problem := Problem_new;
            courses := courses;
            time_slots := _generate_time_slots;
            days := ["Monday"; "Tuesday"; "Wednesday"; "Thursday"; "Friday"]
         |}.

(** [str.replace('a', 'AM').replace('p', 'PM')] of lines 37-38. *)
Definition am_pm (s : string) : string :=
  Str.replace "p" "PM" (Str.replace "a" "AM" (Str.strip s)).

(** Lines 32-46. The unpacking of line 35 stands before the [try]: with
    more than one hyphen its ValueError leaves the function. The [print] of
    line 44 is left out. *)
Definition _parse_time (time_str : string)
  : result (option string * option string) :=
  if Str.contains "-" time_str then
    match Str.split "-" time_str with
    | [start; end_] =>
        let start := am_pm start in
        let end_ := am_pm end_ in
        match strptime_IMp start with
        | Some start_time =>
            match strptime_IMp end_ with
            | Some end_time =>
                Return (Some (strftime_HM start_time),
                        Some (strftime_HM end_time))
            | None => Return (None, None)
            end
        | None => Return (None, None)
        end
    | _ => Raise ValueError
    end
  else Return (None, None).

Definition with_problem (self : ScheduleOptimizer) (p : Problem)
  : ScheduleOptimizer :=
  {| problem := p;
     courses := courses self;
     time_slots := time_slots self;
     days := days self |}.

(** The list comprehension of line 53. *)
Definition domain (self : ScheduleOptimizer) : Domain :=
  flat_map (fun day => map (fun time => (day, time)) (time_slots self))
    (days self).

(** Lines 48-54. *)
Fixpoint setup_loop (self : ScheduleOptimizer) (cs : list Course)
  (p : Problem) : result Problem :=
  match cs with
  | [] => Return p
  | course :: cs' =>
      let course_id := id course in
      do p' <- addVariable p course_id (domain self);
      setup_loop self cs' p'
  end.

Definition setup_variables (self : ScheduleOptimizer)
  : result ScheduleOptimizer :=
  do p <- setup_loop self (courses self) (problem self);
  Return (with_problem self p).

(** [range(a, b)] *)
Definition range (a b : nat) : list nat := seq a (b - a).

(** Line 64: [lambda t1, t2: t1[0] != t2[0] or t1[1] != t2[1]]. *)
Definition time_lambda : callable := fun _ args =>
  match args with
  | [t1; t2] =>
      negb (String.eqb (fst t1) (fst t2)) || negb (String.eqb (snd t1) (snd t2))
  | _ => false
  end.

(** Lines 56-66. *)
Definition add_time_constraints (self : ScheduleOptimizer)
  : ScheduleOptimizer :=
  let course_ids := map id (courses self) in
  with_problem self
    (fold_left (fun p i =>
       fold_left (fun p j =>
         addConstraint p time_lambda
           [nth i course_ids ""; nth j course_ids ""])
         (range (i + 1) (length course_ids)) p)
       (range 0 (length course_ids)) (problem self)).

(** Lines 78-83: the slot of [t] between [s] and [e], all three read as
    "%H:%M". A string that is none would raise; the slots and the bounds
    come from [strftime] and always are. *)
Definition duration_lambda (s e : string) : callable := fun _ args =>
  match args with
  | [t] =>
      match strptime_HM (snd t), strptime_HM s, strptime_HM e with
      | Some x, Some lo, Some hi => (lo <=? x)%Z && (x <=? hi)%Z
      | _, _, _ => false
      end
  | _ => false
  end.

(** The truth value of [start] or [end] in line 75. *)
Definition truthy (o : option string) : bool :=
  match o with
  | Some s => negb (String.eqb s "")
  | None => false
  end.

(** Lines 72-87 for one course. *)
Fixpoint duration_loop (course_id : string) (times : list string)
  (p : Problem) : result Problem :=
  match times with
  | [] => Return p
  | meeting_time :: times' =>
      if negb (String.eqb meeting_time "TBA") then
        do se <- _parse_time meeting_time;
        match se with
        | (Some start, Some end_) =>
            if truthy (Some start) && truthy (Some end_)
            then duration_loop course_id times'
                   (addConstraint p (duration_lambda start end_) [course_id])
            else duration_loop course_id times' p
        | _ => duration_loop course_id times' p
        end
      else duration_loop course_id times' p
  end.

Fixpoint duration_courses (cs : list Course) (p : Problem) : result Problem :=
  match cs with
  | [] => Return p
  | course :: cs' =>
      do p' <- duration_loop (id course) (meeting_times course) p;
      duration_courses cs' p'
  end.

(** Lines 68-87. *)
Definition add_duration_constraints (self : ScheduleOptimizer)
  : result ScheduleOptimizer :=
  do p <- duration_courses (courses self) (problem self);
  Return (with_problem self p).

(** [valid_days.add(d)] on a set. *)
Definition set_add (d : string) (s : list string) : list string :=
  if Str.mem d s then s else s ++ [d].

(** Lines 97-106 for one token. *)
Definition add_days (valid_days : list string) (day : string) : list string :=
  let s1 := if Str.contains "M" day then set_add "Monday" valid_days
            else valid_days in
  let s2 := if Str.contains "T" day && negb (Str.contains "H" day)
            then set_add "Tuesday" s1 else s1 in
  let s3 := if Str.contains "W" day then set_add "Wednesday" s2 else s2 in
  let s4 := if Str.contains "TH" day then set_add "Thursday" s3 else s3 in
  if Str.contains "F" day then set_add "Friday" s4 else s4.

(** Lines 95-106: the day set derived from a course's tokens. *)
Definition derived_days (meeting_days : list string) : list string :=
  fold_left add_days meeting_days [].

(** Line 110: [lambda t: t[0] in valid_days], the name looked up in the
    cells at the call. *)
Definition day_lambda : callable := fun h args =>
  match args with
  | [t] => Str.mem (fst t) (valid_days h)
  | _ => false
  end.

(** Lines 91-112: the loop over the courses, on the problem and on the cell
    of [valid_days]. *)
Fixpoint day_loop (cs : list Course) (st : Problem * cells)
  : Problem * cells :=
  match cs with
  | [] => st
  | course :: cs' =>
      let course_id := id course in
      if negb (Str.mem "TBA" (meeting_days course)) then
        let h := {| valid_days := derived_days (meeting_days course) |} in
        match valid_days h with
        | [] => day_loop cs' (fst st, h)
        | _ => day_loop cs' (addConstraint (fst st) day_lambda [course_id], h)
        end
      else day_loop cs' st
  end.

(** Lines 89-112. *)
Definition add_day_constraints (self : ScheduleOptimizer)
  : ScheduleOptimizer * cells :=
  let st := day_loop (courses self) (problem self, {| valid_days := [] |}) in
  (with_problem self (fst st), snd st).

(** Lines 114-123. *)
Definition optimize (solver : Solver) (self : ScheduleOptimizer)
  : result (option assignments) :=
  do self1 <- setup_variables self;
  let self2 := add_time_constraints self1 in
  do self3 <- add_duration_constraints self2;
  let (self4, h) := add_day_constraints self3 in
  let solution := getSolution solver h (problem self4) in
  Return solution.

(** A run as lines 126-127 and app.py:28-29 make it: a new optimizer on the
    file, then [optimize]. *)
Definition run (solver : Solver) (fs : filesystem) (json_file : string)
  : result (option assignments) :=
  do optimizer <- __init__ fs json_file;
  optimize solver optimizer.

(** ** app.py *)

(** An entry of [formatted_schedule], lines 36-42. *)
Record entry : Type := {
  entry_dept : string;
  entry_code : string;
  entry_title : string;
  entry_day : string;
  entry_time : string
}.

(** The two JSON replies of lines 43 and 45. *)
Inductive response : Type :=
| Success (schedule : list entry)
| NoSchedule (message : string).

(** The truth value of [solution] in line 31: [None] and the empty dict are
    false. *)
Definition solution_truthy (solution : option assignments) : bool :=
  match solution with
  | Some (_ :: _) => true
  | _ => false
  end.

(** [solution.items()] of line 34. *)
Definition items (solution : option assignments) : assignments :=
  match solution with
  | Some a => a
  | None => []
  end.

(** Lines 34-42. *)
Fixpoint format_schedule (selected_courses : list Course)
  (a : assignments) : result (list entry) :=
  match a with
  | [] => Return []
  | (course_id, (day, time)) :: a' =>
      match find (fun c => String.eqb (id c) course_id) selected_courses with
      | Some course_info =>
          do rest <- format_schedule selected_courses a';
          Return ({| entry_dept := course_dept course_info;
                     entry_code := course_code course_info;
                     entry_title := course_title course_info;
                     entry_day := day;
                     entry_time := time |} :: rest)
      | None => Raise StopIteration
      end
  end.

(** Lines 16-45: the handler of [/optimize], on the catalog loaded at
    start-up and the files. *)
Definition optimize_schedule (solver : Solver) (all_courses : list Course)
  (fs : filesystem) (selected_course_ids : list string)
  : result response * filesystem :=
  let selected_courses :=
    filter (fun course => Str.mem (id course) selected_course_ids)
      all_courses in
  let fs' := write fs "selected_courses.json" selected_courses in
  (do solution <- run solver fs' "selected_courses.json";
   if solution_truthy solution then
     do formatted_schedule <- format_schedule selected_courses (items solution);
     Return (Success formatted_schedule)
   else
     Return (NoSchedule "No valid schedule found with the selected courses."),
   fs').

(** ** Notions the properties are stated with *)

(** The constraints hold of [a], as far as their variables are bound. *)
Definition consistent (constraints : list constraint) (a : assignments)
  : Prop :=
  forall c, In c constraints -> call c a = true.

(** [ext] binds the variables of [todo], in that order, each to a value of
    its domain. *)
Definition extends (todo : list (string * Domain)) (ext : assignments)
  : Prop :=
  Forall2 (fun e vd => fst e = fst vd /\ In (snd e) (snd vd)) ext todo.

(** The values of [a] in the order of the variables of [domains]. *)
Definition reorder (a : assignments) (domains : list (string * Domain))
  : assignments :=
  flat_map (fun vd => match get a (fst vd) with
                      | Some x => [(fst vd, x)]
                      | None => []
                      end) domains.

(** The constraints of a problem with their lambdas read against [h]. *)
Definition at_call (h : cells) (p : Problem) : list constraint :=
  map (fun cv => (fst cv h, snd cv)) (_constraints p).

(** A problem whose variables are distinct and whose constraints are over
    its variables: what [addVariable] and the optimizer's calls make. *)
Definition well_built (p : Problem) : Prop :=
  NoDup (map fst (_variables p)) /\
  forall cv, In cv (_constraints p) ->
             snd cv <> [] /\ incl (snd cv) (map fst (_variables p)).

(** [p'] is [p] with the constraints [added] put after its own. *)
Definition adds (added : list (callable * list string)) (p p' : Problem)
  : Prop :=
  _variables p' = _variables p /\
  _constraints p' = _constraints p ++ added.

(** The constraints of lines 61-66, in the order they are added. *)
Definition time_constraints (course_ids : list string)
  : list (callable * list string) :=
  flat_map (fun i =>
    map (fun j => (time_lambda, [nth i course_ids ""; nth j course_ids ""]))
      (range (i + 1) (length course_ids)))
    (range 0 (length course_ids)).

(** The constraints of lines 72-85 for one course. *)
Definition duration_constraints (course_id : string) (times : list string)
  : list (callable * list string) :=
  flat_map (fun meeting_time =>
    if negb (String.eqb meeting_time "TBA") then
      match _parse_time meeting_time with
      | Return (Some s, Some e) =>
          if truthy (Some s) && truthy (Some e)
          then [(duration_lambda s e, [course_id])] else []
      | _ => []
      end
    else []) times.

Definition all_duration_constraints (cs : list Course)
  : list (callable * list string) :=
  flat_map (fun c => duration_constraints (id c) (meeting_times c)) cs.

(** A course whose days are looked at: line 94. *)
Definition has_days (c : Course) : bool :=
  negb (Str.mem "TBA" (meeting_days c)).

(** The constraints of lines 108-112, one for each course whose own day
    set is not empty. *)
Definition day_constraints (cs : list Course)
  : list (callable * list string) :=
  flat_map (fun c =>
    if has_days c then
      match derived_days (meeting_days c) with
      | [] => []
      | _ => [(day_lambda, [id c])]
      end
    else []) cs.

(** What [valid_days] is bound to when the loop is over: the day set of the
    last course whose days were looked at. *)
Definition last_valid_days (cs : list Course) (h : cells) : cells :=
  fold_left (fun h c =>
    if has_days c then {| valid_days := derived_days (meeting_days c) |}
    else h) cs h.

(** The courses [_load_data] keeps. *)
Definition kept (data : list Course) : list Course :=
  filter (fun course => negb (Str.mem "TBA" (meeting_times course))) data.

(** The domain every variable is added with. *)
Definition full_domain : Domain :=
  flat_map (fun day => map (fun time => (day, time)) _generate_time_slots)
    ["Monday"; "Tuesday"; "Wednesday"; "Thursday"; "Friday"].

(** The problem as it stands when [getSolution] is called. *)
Definition built (cs : list Course) : Problem :=
  {| _variables := map (fun c => (id c, full_domain)) cs;
     _constraints := time_constraints (map id cs)
                       ++ all_duration_constraints cs
                       ++ day_constraints cs |}.

(** The cell of [valid_days] when [getSolution] is called. *)
Definition final_cells (cs : list Course) : cells :=
  last_valid_days cs {| valid_days := [] |}.

(** The days a token stands for: lines 97-106. *)
Definition contributes (token d : string) : Prop :=
  (d = "Monday" /\ Str.contains "M" token = true) \/
  (d = "Tuesday" /\ Str.contains "T" token = true
                 /\ Str.contains "H" token = false) \/
  (d = "Wednesday" /\ Str.contains "W" token = true) \/
  (d = "Thursday" /\ Str.contains "TH" token = true) \/
  (d = "Friday" /\ Str.contains "F" token = true).

(** Two courses on different days, both 8:00 to 9:15. *)
Definition course_A : Course :=
  {| id := "A"; course_dept := "CS"; course_code := "101";
     course_title := "Programming";
     meeting_days := ["M"; "W"; "F"]; meeting_times := ["8:00a-9:15a"] |}.

Definition course_B : Course :=
  {| id := "B"; course_dept := "CS"; course_code := "102";
     course_title := "Data Structures";
     meeting_days := ["T"; "TH"]; meeting_times := ["8:00a-9:15a"] |}.

(** A course without a meeting time yet. *)
Definition course_T : Course :=
  {| id := "T"; course_dept := "CS"; course_code := "199";
     course_title := "Seminar";
     meeting_days := ["TBA"]; meeting_times := ["TBA"] |}.

Definition two_courses : filesystem :=
  [("data.json", [course_A; course_B])].

Definition three_courses : filesystem :=
  [("data.json", [course_A; course_T; course_B])].

(** What the backtracking search answers on them. *)
Definition two_courses_schedule : assignments :=
  [("A", ("Tuesday", "08:00")); ("B", ("Tuesday", "08:30"))].

(** The optimizer as a call of [optimize] leaves it (lines 116-119): its
    problem holds the variables and constraints the four methods added. *)
Definition optimized (self : ScheduleOptimizer) : result ScheduleOptimizer :=
  do self1 <- setup_variables self;
  let self2 := add_time_constraints self1 in
  do self3 <- add_duration_constraints self2;
  Return (fst (add_day_constraints self3)).

(** What the constraints of a run ask of an assignment for the courses
    [cs]: it binds their ids, each once, to a day and a slot; distinct
    courses get different pairs; a course's slot lies in each of its parsed
    windows; and the day of a course with a day constraint is in the set
    [valid_days] names when the constraints are called. *)
Record feasible (cs : list Course) (a : assignments) : Prop := {
  feas_keys : forall v, In v (map fst a) <-> In v (map id cs);
  feas_nodup : NoDup (map fst a);
  feas_domain : forall v day time, In (v, (day, time)) a ->
    In day ["Monday"; "Tuesday"; "Wednesday"; "Thursday"; "Friday"] /\
    In time _generate_time_slots;
  feas_distinct : forall c1 c2 v1 v2,
    In (c1, v1) a -> In (c2, v2) a -> c1 <> c2 -> v1 <> v2;
  feas_window : forall course mt s e day time,
    In course cs -> In mt (meeting_times course) ->
    _parse_time mt = Return (Some s, Some e) ->
    In (id course, (day, time)) a ->
    exists t lo hi,
      strptime_HM time = Some t /\ strptime_HM s = Some lo /\
      strptime_HM e = Some hi /\ (lo <= t <= hi)%Z;
  feas_day : forall course day time,
    In course cs -> has_days course = true ->
    derived_days (meeting_days course) <> [] ->
    In (id course, (day, time)) a ->
    In day (valid_days (final_cells cs))
}.

(** An entry of the reply and the item of the solution it is made of: the
    day and the slot of the item, and the department, code and title of the
    first selected course with the item's id. *)
Definition formats (selected_courses : list Course) (e : entry)
  (item : string * value) : Prop :=
  entry_day e = fst (snd item) /\ entry_time e = snd (snd item) /\
  exists course_info,
    find (fun c => String.eqb (id c) (fst item)) selected_courses
      = Some course_info /\
    entry_dept e = course_dept course_info /\
    entry_code e = course_code course_info /\
    entry_title e = course_title course_info.

(** A 12-hour clock reading in the short form, "8:00a" or "12:30p": the
    hour without padding, the minute on two digits, "a" or "p". *)
Definition clock12 (h m : Z) (pm : bool) : string :=
  (if (h <? 10)%Z then String (digit_char h) EmptyString else two_digits h)
  ++ ":" ++ two_digits m ++ (if pm then "p" else "a").

(** Courses for the inputs without a schedule and the inputs that raise:
    a window whose end is before its start, two windows that do not meet,
    a day token that stands for no day, a time with two hyphens. *)
Definition course_R : Course :=
  {| id := "R"; course_dept := "CS"; course_code := "201";
     course_title := "Algorithms";
     meeting_days := ["M"]; meeting_times := ["9:00a-8:00a"] |}.

Definition course_D : Course :=
  {| id := "D"; course_dept := "CS"; course_code := "202";
     course_title := "Databases";
     meeting_days := ["W"];
     meeting_times := ["8:00a-9:00a"; "10:00a-11:00a"] |}.

Definition course_S : Course :=
  {| id := "S"; course_dept := "CS"; course_code := "203";
     course_title := "Studio";
     meeting_days := ["S"]; meeting_times := ["8:00a-9:15a"] |}.

Definition course_H : Course :=
  {| id := "H"; course_dept := "CS"; course_code := "204";
     course_title := "Hardware";
     meeting_days := ["F"]; meeting_times := ["8:00a-9:00a-10:00a"] |}.

(** The optimizer [__init__] builds from [two_courses]. *)
Definition two_courses_optimizer : ScheduleOptimizer :=
  {| problem := Problem_new;
     courses := [course_A; course_B];
     time_slots := _generate_time_slots;
     days := ["Monday"; "Tuesday"; "Wednesday"; "Thursday"; "Friday"] |}.

(** * Properties *)

(** ** Association lists and constraints *)

Section ConstraintFacts.

Lemma mem_In (x : string) (l : list string) :
  Str.mem x l = true <-> In x l.
Proof.
  unfold Str.mem. rewrite existsb_exists. split.
  - intros [y [Hy Heq]]. apply String.eqb_eq in Heq. now subst.
  - intros H. exists x. split; [assumption | apply String.eqb_refl].
Qed.

Lemma mem_false (x : string) (l : list string) :
  Str.mem x l = false <-> ~ In x l.
Proof.
  rewrite <- mem_In. destruct (Str.mem x l); split; congruence.
Qed.

Lemma get_In (a : assignments) (x : string) (v : value) :
  get a x = Some v -> In (x, v) a.
Proof.
  induction a as [|[y w] a IH]; simpl; [discriminate|].
  destruct (String.eqb_spec x y) as [->|Hne].
  - intros [= ->]. now left.
  - intros H. right. now apply IH.
Qed.

Lemma In_get (a : assignments) (x : string) (v : value) :
  NoDup (map fst a) -> In (x, v) a -> get a x = Some v.
Proof.
  induction a as [|[y w] a IH]; simpl; [tauto|].
  intros Hnd [Heq | Hin].
  - injection Heq as -> ->. now rewrite String.eqb_refl.
  - inversion Hnd as [|? ? Hnotin Hnd']; subst.
    destruct (String.eqb_spec x y) as [->|Hne].
    + exfalso. apply Hnotin. change y with (fst (y, v)). now apply in_map.
    + now apply IH.
Qed.

Lemma get_None (a : assignments) (x : string) :
  get a x = None <-> ~ In x (map fst a).
Proof.
  induction a as [|[y w] a IH]; simpl; [tauto|].
  destruct (String.eqb_spec x y) as [->|Hne].
  - split; [discriminate | intros H; exfalso; apply H; now left].
  - rewrite IH. split; intros H; [intros [Heq | Hin]|]; try tauto; congruence.
Qed.

Lemma get_app (a b : assignments) (x : string) :
  get (a ++ b) x = match get a x with
                   | Some v => Some v
                   | None => get b x
                   end.
Proof.
  induction a as [|[y w] a IH]; simpl; [reflexivity|].
  now destruct (String.eqb x y).
Qed.

Lemma parms_app_Some (a b : assignments) (vars : list string)
  (ps : list value) :
  parms a vars = Some ps -> parms (a ++ b) vars = Some ps.
Proof.
  revert ps. induction vars as [|x xs IH]; simpl; intros ps; [tauto|].
  rewrite get_app. destruct (get a x) as [v|]; [|discriminate].
  destruct (parms a xs) as [vs|]; [|discriminate].
  intros [= <-]. now rewrite (IH vs eq_refl).
Qed.

(** A constraint that holds of an assignment held of each of its
    beginnings. *)
Lemma call_prefix (c : constraint) (a b : assignments) :
  call c (a ++ b) = true -> call c a = true.
Proof.
  unfold call. destruct (parms a (snd c)) as [ps|] eqn:E; [|reflexivity].
  now rewrite (parms_app_Some a b _ _ E).
Qed.

Lemma parms_ext (a b : assignments) (vars : list string) :
  (forall x, In x vars -> get a x = get b x) ->
  parms a vars = parms b vars.
Proof.
  induction vars as [|x xs IH]; simpl; intros H; [reflexivity|].
  rewrite (H x (or_introl eq_refl)), IH; [reflexivity|].
  intros y Hy. apply H. now right.
Qed.

(** Binding a variable leaves the constraints that do not mention it as
    they were. *)
Lemma call_other (c : constraint) (a : assignments) (v : string) (x : value) :
  Str.mem v (snd c) = false -> call c (a ++ [(v, x)]) = call c a.
Proof.
  intros Hv. unfold call. rewrite (parms_ext (a ++ [(v, x)]) a); [reflexivity|].
  intros y Hy. rewrite get_app. simpl.
  destruct (get a y); [reflexivity|].
  destruct (String.eqb_spec y v) as [->|]; [|reflexivity].
  apply mem_false in Hv. contradiction.
Qed.

Lemma call_two (c : constraint) (a : assignments) (x y : string)
  (v w : value) :
  snd c = [x; y] -> NoDup (map fst a) -> In (x, v) a -> In (y, w) a ->
  call c a = fst c [v; w].
Proof.
  intros Hc Hnd Hx Hy. unfold call. rewrite Hc. simpl.
  now rewrite (In_get a x v Hnd Hx), (In_get a y w Hnd Hy).
Qed.

Lemma call_one (c : constraint) (a : assignments) (x : string) (v : value) :
  snd c = [x] -> NoDup (map fst a) -> In (x, v) a ->
  call c a = fst c [v].
Proof.
  intros Hc Hnd Hx. unfold call. rewrite Hc. simpl.
  now rewrite (In_get a x v Hnd Hx).
Qed.

End ConstraintFacts.

(** ** The backtracking search is a lawful solver *)

Section Search.

Variable constraints : list constraint.

Lemma consistent_step (a : assignments) (v : string) (x : value) :
  consistent constraints a ->
  forallb (fun c => call c (a ++ [(v, x)])) (vconstraints constraints v)
    = true ->
  consistent constraints (a ++ [(v, x)]).
Proof.
  intros Ha Hchk c Hc.
  destruct (Str.mem v (snd c)) eqn:Hv.
  - rewrite forallb_forall in Hchk. apply Hchk.
    unfold vconstraints. apply filter_In. now split.
  - rewrite call_other by assumption. now apply Ha.
Qed.

Lemma search_sound (todo : list (string * Domain)) :
  forall a s, consistent constraints a -> search constraints todo a = Some s ->
  exists ext, s = a ++ ext /\ extends todo ext /\ consistent constraints s.
Proof.
  induction todo as [|[v d] todo IH]; simpl; intros a s Ha.
  - intros [= <-]. exists []. rewrite app_nil_r. repeat split; [constructor | assumption].
  - induction d as [|x d IHd]; [discriminate|].
    destruct (forallb _ _) eqn:Hchk.
    + destruct (search constraints todo (a ++ [(v, x)])) as [s'|] eqn:Hs.
      * intros [= <-].
        destruct (IH _ _ (consistent_step a v x Ha Hchk) Hs)
          as [ext [-> [Hext Hcons]]].
        rewrite <- app_assoc in *. simpl in *.
        exists ((v, x) :: ext). repeat split; [|assumption].
        constructor; [|assumption]. simpl. split; [reflexivity | now left].
      * intros H. destruct (IHd H) as [ext [-> [Hext Hcons]]].
        exists ext. repeat split; [|assumption].
        inversion Hext as [|e vd l l' [He1 He2] Hrest]; subst.
        constructor; [|assumption]. simpl in *. split; [assumption | now right].
    + intros H. destruct (IHd H) as [ext [-> [Hext Hcons]]].
      exists ext. repeat split; [|assumption].
      inversion Hext as [|e vd l l' [He1 He2] Hrest]; subst.
      constructor; [|assumption]. simpl in *. split; [assumption | now right].
Qed.

Lemma search_complete (todo : list (string * Domain)) :
  forall a, search constraints todo a = None ->
  forall ext, extends todo ext -> ~ consistent constraints (a ++ ext).
Proof.
  induction todo as [|[v d] todo IH]; simpl; intros a; [discriminate|].
  intros Hnone ext Hext Hcons.
  inversion Hext as [|[v' x] vd ext' l' [He1 He2] Hrest]; subst.
  simpl in He1, He2. subst v'.
  assert (Hcons' : consistent constraints ((a ++ [(v, x)]) ++ ext')).
  { rewrite <- app_assoc. exact Hcons. }
  clear Hext Hcons. revert Hnone.
  induction d as [|y d IHd]; [contradiction|].
  destruct He2 as [-> | Hin].
  - destruct (forallb _ _) eqn:Hchk.
    + destruct (search constraints todo (a ++ [(v, x)])) eqn:Hs; [discriminate|].
      intros _. exact (IH _ Hs _ Hrest Hcons').
    + intros _. apply Bool.not_true_iff_false in Hchk. apply Hchk.
      apply forallb_forall. intros c Hc.
      apply call_prefix with (b := ext'). apply Hcons'.
      unfold vconstraints in Hc. now apply filter_In in Hc.
  - destruct (forallb _ _).
    + destruct (search constraints todo (a ++ [(v, y)])); [discriminate|].
      now apply IHd.
    + now apply IHd.
Qed.

End Search.

Lemma extends_keys (todo : list (string * Domain)) (ext : assignments) :
  extends todo ext -> map fst ext = map fst todo.
Proof.
  induction 1 as [|e vd l l' [He _] _ IH]; simpl; [reflexivity|].
  now rewrite He, IH.
Qed.

Lemma extends_domain (todo : list (string * Domain)) (ext : assignments)
  (v : string) (x : value) :
  extends todo ext -> In (v, x) ext -> exists d, In (v, d) todo /\ In x d.
Proof.
  induction 1 as [|[v' x'] [w d] l l' [He1 He2] _ IH]; simpl; [tauto|].
  simpl in He1, He2. intros [[= -> ->] | Hin].
  - exists d. subst. split; [now left | assumption].
  - destruct (IH Hin) as [d' [H1 H2]]. exists d'. split; [now right | assumption].
Qed.

Lemma NoDup_keys_unique {B : Type} (l : list (string * B)) (v : string)
  (d d' : B) :
  NoDup (map fst l) -> In (v, d) l -> In (v, d') l -> d = d'.
Proof.
  induction l as [|[w e] l IH]; simpl; [tauto|].
  intros Hnd H1 H2. inversion Hnd as [|? ? Hnotin Hnd']; subst.
  assert (Hk : forall b : B, In (w, b) l -> False).
  { intros b Hb. apply Hnotin. change w with (fst (w, b)). now apply in_map. }
  destruct H1 as [H1 | H1], H2 as [H2 | H2].
  - congruence.
  - injection H1 as -> ->. exfalso. eauto.
  - injection H2 as -> ->. exfalso. eauto.
  - now apply IH.
Qed.

Lemma get_reorder (a : assignments) (domains : list (string * Domain))
  (y : string) :
  get (reorder a domains) y =
  if Str.mem y (map fst domains) then get a y else None.
Proof.
  induction domains as [|[v d] ds IH]; simpl; [reflexivity|].
  rewrite get_app, IH.
  destruct (String.eqb_spec y v) as [->|Hne]; simpl.
  - destruct (get a v) as [x|] eqn:E; simpl.
    + now rewrite String.eqb_refl.
    + now destruct (Str.mem v (map fst ds)).
  - destruct (get a v) as [x|]; simpl; [|reflexivity].
    destruct (String.eqb_spec y v); [contradiction | reflexivity].
Qed.

Lemma extends_reorder (a : assignments) (domains : list (string * Domain)) :
  (forall v d, In (v, d) domains -> exists x, get a v = Some x /\ In x d) ->
  extends domains (reorder a domains).
Proof.
  induction domains as [|[v d] ds IH]; simpl; intros H; [constructor|].
  destruct (H v d (or_introl eq_refl)) as [x [-> Hx]]. simpl.
  constructor; [now split|]. apply IH. intros w e Hw. apply H. now right.
Qed.

(** The spec's search engine meets the contract of a solver. *)
Lemma BacktrackingSolver_lawful : lawful BacktrackingSolver.
Proof.
  intros domains constraints [Hnd Hwf]. simpl.
  assert (Hnil : consistent constraints []).
  { intros c Hc. destruct (Hwf c Hc) as [Hne _]. unfold call.
    destruct (snd c); [contradiction | reflexivity]. }
  destruct (search constraints domains []) as [s|] eqn:E.
  - destruct (search_sound constraints domains [] s Hnil E)
      as [ext [-> [Hext Hcons]]]. simpl in *.
    pose proof (extends_keys _ _ Hext) as Hk.
    constructor.
    + intros v. now rewrite Hk.
    + now rewrite Hk.
    + intros v x. now apply extends_domain.
    + exact Hcons.
  - intros a [Hkeys Hnodup Hdom Hcs].
    apply (search_complete constraints domains [] E (reorder a domains)).
    + apply extends_reorder. intros v d Hvd.
      assert (Hv : In v (map fst a)).
      { apply Hkeys. change v with (fst (v, d)). now apply in_map. }
      destruct (get a v) as [x|] eqn:Hg; [|now apply get_None in Hg].
      exists x. split; [reflexivity|].
      destruct (Hdom v x (get_In _ _ _ Hg)) as [d' [Hd' Hx]].
      now rewrite (NoDup_keys_unique domains v d d' Hnd Hvd Hd').
    + simpl. intros c Hc. rewrite <- (Hcs c Hc). unfold call.
      rewrite (parms_ext (reorder a domains) a); [reflexivity|].
      intros y Hy. rewrite get_reorder.
      destruct (Hwf c Hc) as [_ Hincl].
      now rewrite (proj2 (mem_In y (map fst domains)) (Hincl y Hy)).
Qed.

(** ** [Problem.getSolution] with a lawful solver *)

Lemma preProcess_keys (c : constraint) (doms : list (string * Domain)) :
  map fst (preProcess c doms) = map fst doms.
Proof.
  unfold preProcess. destruct (snd c) as [|v [|w vs]]; try reflexivity.
  rewrite map_map. apply map_ext. intros [w d]. simpl.
  now destruct (String.eqb w v).
Qed.

Lemma fold_preProcess_keys (cs : list constraint) :
  forall doms,
  map fst (fold_left (fun d c => preProcess c d) cs doms) = map fst doms.
Proof.
  induction cs as [|c cs IH]; simpl; intros doms; [reflexivity|].
  now rewrite IH, preProcess_keys.
Qed.

Lemma call_single (c : constraint) (v : string) (x : value) :
  snd c = [v] -> call c [(v, x)] = fst c [x].
Proof.
  intros H. unfold call. rewrite H. simpl. now rewrite String.eqb_refl.
Qed.

Lemma preProcess_In (c : constraint) (doms : list (string * Domain))
  (v : string) (d' : Domain) :
  In (v, d') (preProcess c doms) ->
  exists d, In (v, d) doms /\
            forall x, In x d' -> In x d /\ (snd c = [v] -> fst c [x] = true).
Proof.
  unfold preProcess. intros H.
  assert (Hsame : In (v, d') doms ->
          (forall w, snd c <> [w]) \/ (exists w, snd c = [w] /\ w <> v) ->
          exists d, In (v, d) doms /\
            forall x, In x d' -> In x d /\ (snd c = [v] -> fst c [x] = true)).
  { intros Hin Hc. exists d'. split; [assumption|]. intros x Hx.
    split; [assumption|]. intros E. destruct Hc as [Hc | [w [Hw Hne]]].
    - now destruct (Hc v).
    - congruence. }
  destruct (snd c) as [|w [|w' vs]] eqn:Hc.
  - apply Hsame; [assumption | left; congruence].
  - apply in_map_iff in H. destruct H as [[u d] [Heq Hin]]. simpl in Heq.
    destruct (String.eqb_spec u w) as [->|Hne].
    + injection Heq as <- <-. exists d. split; [assumption|].
      intros x Hx. apply filter_In in Hx. destruct Hx as [Hx Hcall].
      split; [assumption|]. intros _. now rewrite call_single in Hcall.
    + injection Heq as <- <-. apply Hsame; [assumption|].
      right. exists w. split; [reflexivity | congruence].
  - apply Hsame; [assumption | left; congruence].
Qed.

Lemma fold_preProcess_In (cs : list constraint) :
  forall doms v d',
  In (v, d') (fold_left (fun d c => preProcess c d) cs doms) ->
  exists d, In (v, d) doms /\
            forall x, In x d' ->
              In x d /\
              forall c, In c cs -> snd c = [v] -> fst c [x] = true.
Proof.
  induction cs as [|c cs IH]; simpl; intros doms v d' H.
  - exists d'. split; [assumption|]. intros x Hx. split; [assumption | tauto].
  - destruct (IH _ _ _ H) as [d1 [H1 Hd1]].
    destruct (preProcess_In _ _ _ _ H1) as [d [H0 Hd]].
    exists d. split; [assumption|]. intros x Hx.
    destruct (Hd1 x Hx) as [Hx1 Hcs]. destruct (Hd x Hx1) as [Hx0 Hc].
    split; [assumption|]. intros c0 [<- | Hin] E; [now apply Hc | now apply Hcs].
Qed.

Lemma preProcess_keep (c : constraint) (doms : list (string * Domain))
  (v : string) (d : Domain) (x : value) :
  In (v, d) doms -> In x d -> (snd c = [v] -> fst c [x] = true) ->
  exists d', In (v, d') (preProcess c doms) /\ In x d'.
Proof.
  intros Hin Hx Hc. unfold preProcess.
  destruct (snd c) as [|w [|w' vs]] eqn:Ec; try (exists d; now split).
  destruct (String.eqb_spec v w) as [<-|Hne].
  - exists (filter (fun value => call c [(v, value)]) d). split.
    + apply in_map_iff. exists (v, d). simpl. now rewrite String.eqb_refl.
    + apply filter_In. split; [assumption|].
      rewrite call_single by assumption. now apply Hc.
  - exists d. split; [|assumption]. apply in_map_iff. exists (v, d). simpl.
    destruct (String.eqb_spec v w); [contradiction | now split].
Qed.

Lemma fold_preProcess_keep (cs : list constraint) :
  forall doms v d x,
  In (v, d) doms -> In x d ->
  (forall c, In c cs -> snd c = [v] -> fst c [x] = true) ->
  exists d', In (v, d') (fold_left (fun d c => preProcess c d) cs doms)
             /\ In x d'.
Proof.
  induction cs as [|c cs IH]; simpl; intros doms v d x Hin Hx Hcs.
  - exists d. now split.
  - destruct (preProcess_keep c doms v d x Hin Hx) as [d1 [H1 Hx1]].
    + apply Hcs. now left.
    + apply (IH _ v d1 x H1 Hx1). intros c' Hc'. apply Hcs. now right.
Qed.

Lemma _getArgs_well_built (h : cells) (p : Problem) :
  well_built p ->
  _getArgs h p =
  let domains :=
    fold_left (fun d c => preProcess c d) (at_call h p) (_variables p) in
  if existsb is_empty domains then None
  else Some (domains, filter (fun c => negb (is_unary c)) (at_call h p)).
Proof.
  intros [_ Hwf].
  assert (E : map (resolve h (map fst (_variables p))) (_constraints p)
              = at_call h p).
  { apply map_ext_in. intros [f vs] Hcv.
    destruct (Hwf _ Hcv) as [Hne _]. unfold resolve. simpl in *.
    destruct vs; [now destruct Hne | reflexivity]. }
  unfold _getArgs. cbv zeta. now rewrite E.
Qed.

Section Solve.

Variable solver : Solver.
Hypothesis solver_lawful : lawful solver.

(** An answer of [getSolution] gives every variable a value of the domain
    it was added with, and satisfies every constraint, those on a single
    variable too. *)
Lemma getSolution_sound (h : cells) (p : Problem) (a : assignments) :
  well_built p ->
  getSolution solver h p = Some a ->
  is_solution (_variables p) (at_call h p) a.
Proof.
  intros [Hnd Hwf]. unfold getSolution. rewrite (_getArgs_well_built h p (conj Hnd Hwf)).
  cbv zeta.
  set (doms := fold_left _ (at_call h p) (_variables p)).
  destruct (existsb is_empty doms); [discriminate|].
  assert (Hkeys : map fst doms = map fst (_variables p))
    by apply fold_preProcess_keys.
  assert (Hwf' : forall c, In c (at_call h p) ->
                 snd c <> [] /\ incl (snd c) (map fst doms)).
  { intros c Hc. unfold at_call in Hc. apply in_map_iff in Hc.
    destruct Hc as [cv [<- Hcv]]. simpl. rewrite Hkeys. now apply Hwf. }
  destruct doms as [|vd0 doms0] eqn:Edoms; [discriminate|].
  rewrite <- Edoms in *. intros Hs.
  pose proof (solver_lawful doms
                (filter (fun c => negb (is_unary c)) (at_call h p))) as Hlaw.
  rewrite Hs in Hlaw.
  destruct Hlaw as [Hk Hn Hd Hc].
  { split; [now rewrite Hkeys|]. intros c Hc. apply filter_In in Hc.
    now apply Hwf'. }
  assert (Hpruned : forall v x, In (v, x) a ->
            exists d, In (v, d) (_variables p) /\ In x d /\
              forall c, In c (at_call h p) -> snd c = [v] ->
                        fst c [x] = true).
  { intros v x Hvx. destruct (Hd v x Hvx) as [d' [Hd' Hx]].
    destruct (fold_preProcess_In _ _ _ _ Hd') as [d [Hd0 Hall]].
    exists d. destruct (Hall x Hx). now repeat split. }
  constructor.
  - intros v. now rewrite Hk, Hkeys.
  - assumption.
  - intros v x Hvx. destruct (Hpruned v x Hvx) as [d [H1 [H2 _]]]. eauto.
  - intros c Hin. destruct (is_unary c) eqn:Hu.
    + unfold is_unary in Hu. apply Nat.eqb_eq in Hu.
      destruct (snd c) as [|v [|w vs]] eqn:Ec; try discriminate.
      assert (Hv : In v (map fst a)).
      { apply Hk. destruct (Hwf' c Hin) as [_ Hincl]. apply Hincl.
        rewrite Ec. now left. }
      destruct (get a v) as [x|] eqn:Hg; [|now apply get_None in Hg].
      destruct (Hpruned v x (get_In _ _ _ Hg)) as [d [_ [_ Hall]]].
      unfold call. rewrite Ec. simpl. rewrite Hg. now apply Hall.
    + apply Hc. apply filter_In. split; [assumption | now rewrite Hu].
Qed.

(** And [None] from [getSolution] on a problem with variables means that
    no assignment satisfies the constraints. *)
Lemma getSolution_complete (h : cells) (p : Problem) :
  well_built p ->
  _variables p <> [] ->
  getSolution solver h p = None ->
  forall a, ~ is_solution (_variables p) (at_call h p) a.
Proof.
  intros [Hnd Hwf] Hvars. unfold getSolution.
  rewrite (_getArgs_well_built h p (conj Hnd Hwf)). cbv zeta.
  set (doms := fold_left _ (at_call h p) (_variables p)).
  assert (Hkeys : map fst doms = map fst (_variables p))
    by apply fold_preProcess_keys.
  intros Hnone a [Hk Hn Hd Hc].
  assert (Hkeep : forall v x, In (v, x) a ->
            exists d', In (v, d') doms /\ In x d').
  { intros v x Hvx. destruct (Hd v x Hvx) as [d [Hin Hx]].
    apply (fold_preProcess_keep _ _ v d x Hin Hx).
    intros c Hin' Ev. rewrite <- (Hc c Hin').
    symmetry. exact (call_one c a v x Ev Hn Hvx). }
  destruct (existsb is_empty doms) eqn:Hempty.
  - apply existsb_exists in Hempty. destruct Hempty as [[v d] [Hin He]].
    unfold is_empty in He. simpl in He. destruct d; [|discriminate].
    assert (Hv : In v (map fst a)).
    { apply Hk. rewrite <- Hkeys. change v with (fst (v, @nil value)).
      now apply in_map. }
    destruct (get a v) as [x|] eqn:Hg; [|now apply get_None in Hg].
    destruct (Hkeep v x (get_In _ _ _ Hg)) as [d' [Hin' Hx]].
    assert (Hnd' : NoDup (map fst doms)) by now rewrite Hkeys.
    rewrite (NoDup_keys_unique doms v d' [] Hnd' Hin' Hin) in Hx.
    contradiction.
  - destruct doms as [|vd0 doms0] eqn:Edoms.
    + destruct (_variables p); [congruence | discriminate].
    + rewrite <- Edoms in *.
      pose proof (solver_lawful doms
                    (filter (fun c => negb (is_unary c)) (at_call h p)))
        as Hlaw.
      rewrite Hnone in Hlaw. apply (Hlaw ltac:(
        split; [now rewrite Hkeys|]; intros c Hin; apply filter_In in Hin;
        destruct Hin as [Hin _]; unfold at_call in Hin;
        apply in_map_iff in Hin; destruct Hin as [cv [<- Hcv]]; simpl;
        rewrite Hkeys; now apply Hwf) a).
      constructor.
      * intros v. now rewrite Hk, Hkeys.
      * assumption.
      * assumption.
      * intros c Hin. apply Hc. now apply filter_In in Hin.
Qed.

End Solve.

(** ** What the optimizer adds to its problem *)

Lemma adds_nil (p : Problem) : adds [] p p.
Proof. split; [reflexivity | now rewrite app_nil_r]. Qed.

Lemma adds_trans (l1 l2 : list (callable * list string)) (p q r : Problem) :
  adds l1 p q -> adds l2 q r -> adds (l1 ++ l2) p r.
Proof.
  intros [Hv1 Hc1] [Hv2 Hc2]. split; [congruence|].
  now rewrite Hc2, Hc1, app_assoc.
Qed.

Lemma adds_addConstraint (p : Problem) (f : callable) (vars : list string) :
  adds [(f, vars)] p (addConstraint p f vars).
Proof. now split. Qed.

Lemma adds_fold {X : Type} (F : Problem -> X -> Problem)
  (L : X -> list (callable * list string)) (l : list X) :
  (forall p x, adds (L x) p (F p x)) ->
  forall p, adds (flat_map L l) p (fold_left F l p).
Proof.
  intros HF. induction l as [|x l IH]; simpl; intros p; [apply adds_nil|].
  eapply adds_trans; [apply HF | apply IH].
Qed.

Lemma adds_fold_map {X : Type} (f : X -> callable) (g : X -> list string)
  (l : list X) :
  forall p, adds (map (fun x => (f x, g x)) l) p
              (fold_left (fun p x => addConstraint p (f x) (g x)) l p).
Proof.
  induction l as [|x l IH]; simpl; intros p; [apply adds_nil|].
  apply (adds_trans [(f x, g x)] _ p (addConstraint p (f x) (g x)));
    [apply adds_addConstraint | apply IH].
Qed.

(** *** [setup_variables] *)

Lemma addVariable_Return (p p' : Problem) (v : string) (d : Domain) :
  addVariable p v d = Return p' ->
  ~ In v (map fst (_variables p)) /\ d <> [] /\
  _variables p' = _variables p ++ [(v, d)] /\
  _constraints p' = _constraints p.
Proof.
  unfold addVariable. destruct (Str.mem v (map fst (_variables p))) eqn:E;
    [discriminate|].
  apply mem_false in E. destruct d as [|x d]; [discriminate|].
  intros [= <-]. simpl. repeat split; [assumption | discriminate].
Qed.

Lemma addVariable_new (p : Problem) (v : string) (d : Domain) :
  ~ In v (map fst (_variables p)) -> d <> [] ->
  exists p', addVariable p v d = Return p'.
Proof.
  intros Hv Hd. unfold addVariable.
  rewrite (proj2 (mem_false _ _) Hv). destruct d; [congruence | eauto].
Qed.

Lemma setup_loop_Return (self : ScheduleOptimizer) (cs : list Course) :
  forall p p', setup_loop self cs p = Return p' ->
  _variables p' = _variables p ++ map (fun c => (id c, domain self)) cs /\
  _constraints p' = _constraints p /\
  (NoDup (map fst (_variables p)) -> NoDup (map fst (_variables p'))).
Proof.
  induction cs as [|c cs IH]; simpl; intros p p'.
  - intros [= <-]. rewrite app_nil_r. tauto.
  - destruct (addVariable p (id c) (domain self)) as [p1|e] eqn:E;
      [|discriminate]. simpl. intros H.
    destruct (addVariable_Return _ _ _ _ E) as [Hnew [_ [Hv Hc]]].
    destruct (IH _ _ H) as [Hv' [Hc' Hnd]].
    split; [|split].
    + now rewrite Hv', Hv, <- app_assoc.
    + congruence.
    + intros Hp. apply Hnd. rewrite Hv, map_app. simpl.
      apply Permutation_NoDup with (l := id c :: map fst (_variables p)).
      * apply Permutation_cons_append.
      * now constructor.
Qed.

Lemma setup_loop_total (self : ScheduleOptimizer) (cs : list Course) :
  domain self <> [] ->
  forall p, NoDup (map fst (_variables p) ++ map id cs) ->
  exists p', setup_loop self cs p = Return p'.
Proof.
  intros Hd. induction cs as [|c cs IH]; simpl; intros p Hnd; [eauto|].
  destruct (addVariable_new p (id c) (domain self)) as [p1 E]; [|assumption|].
  - apply NoDup_remove_2 in Hnd. intros Hin. apply Hnd.
    apply in_or_app. now left.
  - rewrite E. simpl. apply IH.
    destruct (addVariable_Return _ _ _ _ E) as [_ [_ [Hv _]]].
    rewrite Hv, map_app, <- app_assoc. exact Hnd.
Qed.

(** *** [add_time_constraints] *)

Lemma add_time_constraints_adds (self : ScheduleOptimizer) :
  adds (time_constraints (map id (courses self)))
    (problem self) (problem (add_time_constraints self)).
Proof.
  unfold add_time_constraints, time_constraints. simpl.
  apply adds_fold. intros p i.
  apply (adds_fold_map (fun _ => time_lambda)
           (fun j => [nth i (map id (courses self)) "";
                      nth j (map id (courses self)) ""])).
Qed.

Lemma time_constraints_In (ids : list string) (i j : nat) :
  (i < j)%nat -> (j < length ids)%nat ->
  In (time_lambda, [nth i ids ""; nth j ids ""]) (time_constraints ids).
Proof.
  intros Hij Hj. unfold time_constraints, range. apply in_flat_map.
  exists i. split; [apply in_seq; lia|].
  apply in_map_iff. exists j. split; [reflexivity | apply in_seq; lia].
Qed.

Lemma time_constraints_vars (ids : list string) (cv : callable * list string) :
  In cv (time_constraints ids) -> snd cv <> [] /\ incl (snd cv) ids.
Proof.
  unfold time_constraints, range. intros H. apply in_flat_map in H.
  destruct H as [i [Hi H]]. apply in_map_iff in H.
  destruct H as [j [<- Hj]]. apply in_seq in Hi, Hj. simpl.
  split; [discriminate|].
  intros x [<- | [<- | []]]; apply nth_In; lia.
Qed.

(** *** [_parse_time] and [add_duration_constraints] *)

Lemma prefix_char (x c : ascii) (s : string) :
  prefix (String x EmptyString) (String c s) = Ascii.eqb c x.
Proof.
  cbn [prefix]. destruct (ascii_dec x c) as [<-|Hne].
  - rewrite Ascii.eqb_refl. now destruct s.
  - symmetry. apply Ascii.eqb_neq. congruence.
Qed.

Lemma split_not_nil (sep : ascii) (s : string) : Str.split sep s <> [].
Proof.
  destruct s as [|c s]; cbn [Str.split]; [discriminate|].
  destruct (Ascii.eqb c sep); [discriminate|].
  destruct (Str.split sep s); discriminate.
Qed.

Lemma contains_split (s : string) :
  Str.contains "-" s = true -> (2 <= length (Str.split "-" s))%nat.
Proof.
  induction s as [|c s IH]; [discriminate|].
  cbn [Str.contains Str.split]. rewrite prefix_char.
  destruct (Ascii.eqb c "-") eqn:Ec.
  - intros _. pose proof (split_not_nil "-" s).
    destruct (Str.split "-" s); simpl; [congruence | lia].
  - simpl. intros H. specialize (IH H).
    destruct (Str.split "-" s); simpl in *; lia.
Qed.

(** [_parse_time] returns on a string with at most one hyphen. *)
Lemma _parse_time_total (s : string) :
  (length (Str.split "-" s) <= 2)%nat -> exists r, _parse_time s = Return r.
Proof.
  intros Hlen. unfold _parse_time.
  destruct (Str.contains "-" s) eqn:Ec; [|eauto].
  apply contains_split in Ec.
  destruct (Str.split "-" s) as [|a [|b [|c l]]]; simpl in *; try lia.
  destruct (strptime_IMp (am_pm a)); [|eauto].
  destruct (strptime_IMp (am_pm b)); eauto.
Qed.

Lemma strftime_HM_not_empty (t : datetime) : strftime_HM t <> "".
Proof. unfold strftime_HM, two_digits. simpl. discriminate. Qed.

Lemma _parse_time_window (mt s e : string) :
  _parse_time mt = Return (Some s, Some e) ->
  truthy (Some s) && truthy (Some e) = true.
Proof.
  unfold _parse_time. destruct (Str.contains "-" mt); [|discriminate].
  destruct (Str.split "-" mt) as [|a [|b [|c l]]]; try discriminate.
  destruct (strptime_IMp (am_pm a)) as [t1|]; [|discriminate].
  destruct (strptime_IMp (am_pm b)) as [t2|]; [|discriminate].
  intros [= <- <-]. simpl.
  destruct (String.eqb_spec (strftime_HM t1) "") as [E|_];
    [now apply strftime_HM_not_empty in E|].
  destruct (String.eqb_spec (strftime_HM t2) "") as [E|_];
    [now apply strftime_HM_not_empty in E | reflexivity].
Qed.

Lemma duration_loop_adds (course_id : string) (times : list string) :
  forall p p', duration_loop course_id times p = Return p' ->
  adds (duration_constraints course_id times) p p'.
Proof.
  induction times as [|mt times IH]; intros p p'.
  - intros [= <-]. apply adds_nil.
  - cbn [duration_loop]. unfold duration_constraints. cbn [flat_map].
    fold (duration_constraints course_id times).
    destruct (negb (String.eqb mt "TBA")); [|apply IH].
    destruct (_parse_time mt) as [[[s|] [e|]]|]; cbn [bind app];
      try apply IH; try discriminate.
    destruct (truthy (Some s) && truthy (Some e)); [|apply IH].
    intros H. apply (adds_trans [(duration_lambda s e, [course_id])] _ p
                       (addConstraint p (duration_lambda s e) [course_id]));
      [apply adds_addConstraint | now apply IH].
Qed.

Lemma duration_loop_total (course_id : string) (times : list string) :
  (forall mt, In mt times -> (length (Str.split "-" mt) <= 2)%nat) ->
  forall p, exists p', duration_loop course_id times p = Return p'.
Proof.
  induction times as [|mt times IH]; intros H p; [simpl; eauto|].
  assert (IH' : forall q, exists p', duration_loop course_id times q = Return p').
  { apply IH. intros mt' Hmt'. apply H. now right. }
  cbn [duration_loop].
  destruct (negb (String.eqb mt "TBA")); [|apply IH'].
  destruct (_parse_time_total mt) as [[[s|] [e|]] ->];
    [apply H; now left | | | |]; cbn [bind]; try apply IH'.
  destruct (truthy (Some s) && truthy (Some e)); apply IH'.
Qed.

Lemma duration_courses_adds (cs : list Course) :
  forall p p', duration_courses cs p = Return p' ->
  adds (all_duration_constraints cs) p p'.
Proof.
  induction cs as [|c cs IH]; simpl; intros p p'.
  - intros [= <-]. apply adds_nil.
  - destruct (duration_loop (id c) (meeting_times c) p) as [p1|] eqn:E;
      [|discriminate]. simpl. intros H.
    apply (adds_trans _ _ p p1 p');
      [now apply duration_loop_adds | now apply IH].
Qed.

Lemma duration_courses_total (cs : list Course) :
  (forall c mt, In c cs -> In mt (meeting_times c) ->
                (length (Str.split "-" mt) <= 2)%nat) ->
  forall p, exists p', duration_courses cs p = Return p'.
Proof.
  induction cs as [|c cs IH]; simpl; intros H p; [eauto|].
  destruct (duration_loop_total (id c) (meeting_times c)) with (p := p)
    as [p1 ->]; [intros mt; apply H; now left|].
  simpl. apply IH. intros c' mt Hc'. apply H. now right.
Qed.

Lemma all_duration_constraints_In (cs : list Course) (c : Course)
  (mt s e : string) :
  In c cs -> In mt (meeting_times c) ->
  _parse_time mt = Return (Some s, Some e) ->
  In (duration_lambda s e, [id c]) (all_duration_constraints cs).
Proof.
  intros Hc Hmt Hp. unfold all_duration_constraints. apply in_flat_map.
  exists c. split; [assumption|]. unfold duration_constraints.
  apply in_flat_map. exists mt. split; [assumption|].
  assert (Hne : String.eqb mt "TBA" = false).
  { destruct (String.eqb_spec mt "TBA") as [->|]; [discriminate | reflexivity]. }
  rewrite Hne, Hp, (_parse_time_window _ _ _ Hp). simpl. now left.
Qed.

Lemma all_duration_constraints_vars (cs : list Course)
  (cv : callable * list string) :
  In cv (all_duration_constraints cs) ->
  exists c, In c cs /\ snd cv = [id c].
Proof.
  unfold all_duration_constraints. intros H. apply in_flat_map in H.
  destruct H as [c [Hc H]]. exists c. split; [assumption|].
  unfold duration_constraints in H. apply in_flat_map in H.
  destruct H as [mt [_ H]].
  destruct (negb (String.eqb mt "TBA")); [|contradiction].
  destruct (_parse_time mt) as [[[s|] [e|]]|]; try contradiction.
  destruct (truthy (Some s) && truthy (Some e)); [|contradiction].
  destruct H as [<- | []]. reflexivity.
Qed.

(** *** [add_day_constraints] *)

Lemma day_loop_spec (cs : list Course) :
  forall st,
  adds (day_constraints cs) (fst st) (fst (day_loop cs st)) /\
  snd (day_loop cs st) = last_valid_days cs (snd st).
Proof.
  induction cs as [|c cs IH]; simpl; intros st.
  - split; [apply adds_nil | reflexivity].
  - unfold has_days. destruct (negb (Str.mem "TBA" (meeting_days c))).
    + destruct (derived_days (meeting_days c)) as [|d ds] eqn:E.
      * destruct (IH (fst st, {| valid_days := [] |})) as [H1 H2].
        simpl in *. split; assumption.
      * destruct (IH (addConstraint (fst st) day_lambda [id c],
                      {| valid_days := d :: ds |})) as [H1 H2].
        simpl in *. split; [|assumption].
        apply (adds_trans [(day_lambda, [id c])] _ (fst st)
                 (addConstraint (fst st) day_lambda [id c]));
          [apply adds_addConstraint | assumption].
    + apply IH.
Qed.

Lemma day_constraints_vars (cs : list Course) (cv : callable * list string) :
  In cv (day_constraints cs) -> exists c, In c cs /\ snd cv = [id c].
Proof.
  unfold day_constraints. intros H. apply in_flat_map in H.
  destruct H as [c [Hc H]]. exists c. split; [assumption|].
  destruct (has_days c); [|contradiction].
  destruct (derived_days (meeting_days c)); [contradiction|].
  destruct H as [<- | []]. reflexivity.
Qed.

Lemma day_constraints_In (cs : list Course) (c : Course) :
  In c cs -> has_days c = true -> derived_days (meeting_days c) <> [] ->
  In (day_lambda, [id c]) (day_constraints cs).
Proof.
  intros Hc Hd Hne. unfold day_constraints. apply in_flat_map.
  exists c. split; [assumption|]. rewrite Hd.
  destruct (derived_days (meeting_days c)); [congruence | now left].
Qed.

(** ** The model a run builds *)

Lemma Problem_eq (p : Problem) (vs : list (string * Domain))
  (cs : list (callable * list string)) :
  _variables p = vs -> _constraints p = cs ->
  p = {| _variables := vs; _constraints := cs |}.
Proof. destruct p. simpl. congruence. Qed.

Lemma full_domain_not_empty : full_domain <> [].
Proof. vm_compute. discriminate. Qed.

(** A run that returns has read its file, found the kept courses' ids
    distinct, and answers with [getSolution] on the built problem. *)
Lemma run_Return (solver : Solver) (fs : filesystem) (file : string)
  (r : option assignments) :
  run solver fs file = Return r ->
  exists data,
    read fs file = Some data /\ NoDup (map id (kept data)) /\
    r = getSolution solver (final_cells (kept data)) (built (kept data)).
Proof.
  unfold run, __init__, _load_data.
  destruct (read fs file) as [data|]; [|discriminate].
  fold (kept data). cbn [bind]. intros H. exists data.
  split; [reflexivity|]. revert H. unfold optimize, setup_variables.
  cbn [problem courses time_slots days].
  match goal with |- context [setup_loop ?s _ _] => set (self := s) end.
  destruct (setup_loop self (kept data) Problem_new) as [p1|] eqn:E1;
    [|discriminate].
  cbn [bind]. unfold add_duration_constraints.
  pose proof (add_time_constraints_adds (with_problem self p1)) as [Hv2 Hc2].
  set (self2 := add_time_constraints (with_problem self p1)) in *.
  assert (Hcs2 : courses self2 = kept data) by reflexivity.
  rewrite Hcs2.
  destruct (duration_courses (kept data) (problem self2)) as [p3|] eqn:E3;
    [|discriminate].
  cbn [bind]. unfold add_day_constraints.
  cbn [problem courses with_problem].
  destruct (day_loop_spec (kept data) (p3, {| valid_days := [] |}))
    as [[Hv4 Hc4] Hh].
  intros [= <-].
  destruct (setup_loop_Return _ _ _ _ E1) as [Hv1 [Hc1 Hnd]].
  destruct (duration_courses_adds _ _ _ E3) as [Hv3 Hc3].
  cbn [fst snd problem with_problem courses] in *.
  assert (Hvars : _variables p1 = map (fun c => (id c, full_domain)) (kept data))
    by exact Hv1.
  split.
  - specialize (Hnd (NoDup_nil _)). rewrite Hvars, map_map in Hnd. exact Hnd.
  - rewrite Hh. f_equal. apply Problem_eq.
    + congruence.
    + rewrite Hc4, Hc3, Hc2, Hc1. simpl. now rewrite <- app_assoc.
Qed.

Lemma run_total (solver : Solver) (fs : filesystem) (file : string)
  (data : list Course) :
  read fs file = Some data ->
  NoDup (map id (kept data)) ->
  (forall c mt, In c (kept data) -> In mt (meeting_times c) ->
                (length (Str.split "-" mt) <= 2)%nat) ->
  exists r, run solver fs file = Return r.
Proof.
  intros Hread Hnd Htimes. unfold run, __init__, _load_data. rewrite Hread.
  fold (kept data). cbn [bind]. unfold optimize, setup_variables.
  cbn [problem courses time_slots days].
  match goal with |- context [setup_loop ?s _ _] => set (self := s) end.
  destruct (setup_loop_total self (kept data) full_domain_not_empty Problem_new)
    as [p1 ->]; [exact Hnd|].
  cbn [bind]. unfold add_duration_constraints.
  set (self2 := add_time_constraints (with_problem self p1)).
  assert (Hcs2 : courses self2 = kept data) by reflexivity.
  rewrite Hcs2.
  destruct (duration_courses_total (kept data) Htimes (problem self2))
    as [p3 ->].
  cbn [bind]. destruct (add_day_constraints _). eauto.
Qed.

Lemma built_well_built (cs : list Course) :
  NoDup (map id cs) -> well_built (built cs).
Proof.
  intros Hnd. unfold well_built, built. cbn [_variables _constraints].
  rewrite map_map. cbn [fst]. split; [assumption|].
  intros cv Hcv. apply in_app_or in Hcv. destruct Hcv as [H | H].
  - now apply time_constraints_vars.
  - assert (Hone : exists c, In c cs /\ snd cv = [id c]).
    { apply in_app_or in H. destruct H as [H | H];
        [now apply all_duration_constraints_vars
        | now apply day_constraints_vars]. }
    destruct Hone as [c [Hc ->]]. split; [discriminate|].
    intros x [<- | []]. now apply in_map.
Qed.

(** ** Returned assignments *)

Section Returned.

Variable solver : Solver.
Hypothesis solver_lawful : lawful solver.

(** A returned assignment solves the built problem, its lambdas read
    against the cells as they are after [add_day_constraints]. *)
Lemma run_solution (fs : filesystem) (file : string) (a : assignments) :
  run solver fs file = Return (Some a) ->
  exists data,
    read fs file = Some data /\ NoDup (map id (kept data)) /\
    is_solution (_variables (built (kept data)))
      (at_call (final_cells (kept data)) (built (kept data))) a.
Proof.
  intros H. destruct (run_Return _ _ _ _ H) as [data [Hread [Hnd Hr]]].
  exists data. split; [assumption|]. split; [assumption|].
  apply getSolution_sound with (solver := solver);
    [assumption | now apply built_well_built | now symmetry].
Qed.

Lemma built_keys (cs : list Course) :
  map fst (_variables (built cs)) = map id cs.
Proof. unfold built. cbn [_variables]. now rewrite map_map. Qed.

Lemma at_call_In (h : cells) (p : Problem) (f : callable)
  (vars : list string) :
  In (f, vars) (_constraints p) -> In (f h, vars) (at_call h p).
Proof.
  intros H. unfold at_call. apply in_map_iff. now exists (f, vars).
Qed.

Lemma time_lambda_true (h : cells) (v w : value) :
  time_lambda h [v; w] = true -> fst v <> fst w \/ snd v <> snd w.
Proof.
  unfold time_lambda. intros H. apply orb_true_iff in H.
  destruct H as [H | H]; [left | right];
    apply negb_true_iff, String.eqb_neq in H; exact H.
Qed.

(** C2. In every assignment a run returns, two distinct courses never have
    the same (day, time) pair: their values differ in the day or in the
    time. *)
Theorem no_collision (fs : filesystem) (file : string) (a : assignments)
  (c1 c2 : string) (v1 v2 : value) :
  run solver fs file = Return (Some a) ->
  In (c1, v1) a -> In (c2, v2) a -> c1 <> c2 ->
  fst v1 <> fst v2 \/ snd v1 <> snd v2.
Proof.
  intros Hrun H1 H2 Hne.
  destruct (run_solution _ _ _ Hrun) as [data [_ [_ [Hk Hnd _ Hc]]]].
  set (cs := kept data) in *. rewrite built_keys in Hk.
  assert (Hin : forall c v, In (c, v) a ->
                exists i, (i < length (map id cs))%nat /\
                          nth i (map id cs) "" = c).
  { intros c v Hcv. apply In_nth. apply Hk.
    change c with (fst (c, v)). now apply in_map. }
  destruct (Hin _ _ H1) as [i [Hi Ei]], (Hin _ _ H2) as [j [Hj Ej]].
  assert (Hij : (i < j \/ j < i)%nat).
  { destruct (Nat.lt_total i j) as [|[->|]]; [tauto | congruence | tauto]. }
  destruct Hij as [Hlt | Hlt].
  - pose proof (time_constraints_In (map id cs) i j Hlt Hj) as Hmem.
    rewrite Ei, Ej in Hmem.
    assert (Hcall := Hc (time_lambda (final_cells cs), [c1; c2])).
    rewrite (call_two _ a c1 c2 v1 v2) in Hcall by (auto; reflexivity).
    apply (time_lambda_true (final_cells cs)). apply Hcall.
    apply at_call_In. unfold built. cbn [_constraints].
    apply in_or_app. now left.
  - pose proof (time_constraints_In (map id cs) j i Hlt Hi) as Hmem.
    rewrite Ei, Ej in Hmem.
    assert (Hcall := Hc (time_lambda (final_cells cs), [c2; c1])).
    rewrite (call_two _ a c2 c1 v2 v1) in Hcall by (auto; reflexivity).
    destruct (time_lambda_true (final_cells cs) v2 v1) as [H | H];
      [|left; congruence | right; congruence].
    apply Hcall. apply at_call_In. unfold built. cbn [_constraints].
    apply in_or_app. now left.
Qed.

(** C3. In every assignment a run returns, the time of a modelled course
    lies in every window its meeting-time strings parse to: read as
    "%H:%M", start <= time <= end. *)
Theorem window_membership (fs : filesystem) (file : string)
  (data : list Course) (a : assignments) (course : Course)
  (meeting_time start end_ : string) (day time : string) :
  read fs file = Some data ->
  run solver fs file = Return (Some a) ->
  In course (kept data) ->
  In meeting_time (meeting_times course) ->
  _parse_time meeting_time = Return (Some start, Some end_) ->
  In (id course, (day, time)) a ->
  exists t lo hi,
    strptime_HM time = Some t /\ strptime_HM start = Some lo /\
    strptime_HM end_ = Some hi /\ (lo <= t <= hi)%Z.
Proof.
  intros Hread Hrun Hcourse Hmt Hparse Hin.
  destruct (run_solution _ _ _ Hrun) as [data' [Hread' [_ [_ Hnd _ Hc]]]].
  assert (data' = data) by congruence. subst data'.
  set (cs := kept data) in *.
  assert (Hcall := Hc (duration_lambda start end_ (final_cells cs),
                       [id course])).
  rewrite (call_one _ a (id course) (day, time)) in Hcall
    by (auto; reflexivity).
  assert (Htrue : duration_lambda start end_ (final_cells cs) [(day, time)]
                  = true).
  { apply Hcall. apply at_call_In. unfold built. cbn [_constraints].
    apply in_or_app. right. apply in_or_app. left.
    now apply all_duration_constraints_In with (mt := meeting_time). }
  unfold duration_lambda in Htrue. cbn [snd] in Htrue.
  destruct (strptime_HM time) as [t|]; [|discriminate].
  destruct (strptime_HM start) as [lo|]; [|discriminate].
  destruct (strptime_HM end_) as [hi|]; [|discriminate].
  exists t, lo, hi. apply andb_true_iff in Htrue.
  destruct Htrue as [Hlo Hhi]. apply Z.leb_le in Hlo, Hhi.
  repeat split; assumption.
Qed.

Lemma NoDup_map_eq {A B : Type} (f : A -> B) (l : list A) (x y : A) :
  NoDup (map f l) -> In x l -> In y l -> f x = f y -> x = y.
Proof.
  induction l as [|z l IH]; simpl; [tauto|].
  intros Hnd Hx Hy E. inversion Hnd as [|? ? Hnotin Hnd']; subst.
  destruct Hx as [-> | Hx], Hy as [-> | Hy].
  - reflexivity.
  - exfalso. apply Hnotin. rewrite E. now apply in_map.
  - exfalso. apply Hnotin. rewrite <- E. now apply in_map.
  - now apply IH.
Qed.

Lemma kept_In (data : list Course) (c : Course) :
  In c (kept data) <-> In c data /\ ~ In "TBA" (meeting_times c).
Proof.
  unfold kept. rewrite filter_In, negb_true_iff, mem_false. tauto.
Qed.

Lemma setup_variables_keys (fs : filesystem) (file : string)
  (data : list Course) (optimizer optimizer' : ScheduleOptimizer) :
  read fs file = Some data ->
  __init__ fs file = Return optimizer ->
  setup_variables optimizer = Return optimizer' ->
  _variables (problem optimizer')
  = map (fun c => (id c, full_domain)) (kept data).
Proof.
  intros Hread. unfold __init__, _load_data. rewrite Hread. fold (kept data).
  cbn [bind]. intros [= <-]. unfold setup_variables.
  cbn [problem courses].
  match goal with |- context [setup_loop ?s _ _] => set (self := s) end.
  destruct (setup_loop self (kept data) Problem_new) as [p1|] eqn:E;
    [|discriminate].
  cbn [bind]. intros [= <-]. cbn [problem with_problem].
  destruct (setup_loop_Return _ _ _ _ E) as [Hv _]. exact Hv.
Qed.

(** C5. A course with a "TBA" entry among its meeting times is not among
    the optimizer's courses, gets no variable from [setup_variables], and
    its id is bound in no assignment a run returns (ids being unique in the
    input). *)
Theorem tba_exclusion (fs : filesystem) (file : string) (data : list Course)
  (course : Course) :
  read fs file = Some data ->
  NoDup (map id data) ->
  In course data ->
  In "TBA" (meeting_times course) ->
  (forall optimizer, __init__ fs file = Return optimizer ->
     ~ In course (courses optimizer) /\
     forall optimizer', setup_variables optimizer = Return optimizer' ->
       ~ In (id course) (map fst (_variables (problem optimizer')))) /\
  (forall a, run solver fs file = Return (Some a) ->
     get a (id course) = None).
Proof.
  intros Hread Hnd Hin Htba.
  assert (Hnot : ~ In course (kept data)).
  { rewrite kept_In. tauto. }
  assert (Hid : ~ In (id course) (map id (kept data))).
  { intros H. apply in_map_iff in H. destruct H as [c [E Hc]].
    apply Hnot. rewrite <- (NoDup_map_eq id data c course); try assumption.
    now apply kept_In in Hc. }
  split.
  - intros optimizer Hinit. split.
    + revert Hinit. unfold __init__, _load_data. rewrite Hread.
      fold (kept data). cbn [bind]. now intros [= <-].
    + intros optimizer' Hsetup.
      rewrite (setup_variables_keys _ _ _ _ _ Hread Hinit Hsetup), map_map.
      exact Hid.
  - intros a Hrun.
    destruct (run_solution _ _ _ Hrun) as [data' [Hread' [_ [Hk _ _ _]]]].
    assert (data' = data) by congruence. subst data'.
    apply get_None. rewrite Hk, built_keys. exact Hid.
Qed.

Lemma full_domain_In (day time : string) :
  In (day, time) full_domain ->
  In day ["Monday"; "Tuesday"; "Wednesday"; "Thursday"; "Friday"] /\
  In time _generate_time_slots.
Proof.
  unfold full_domain. intros H. apply in_flat_map in H.
  destruct H as [d [Hd H]]. apply in_map_iff in H.
  destruct H as [t [[= <- <-] Ht]]. now split.
Qed.

(** C6. A run on well-formed input (distinct ids among the kept courses,
    at most one hyphen in each of their meeting-time strings) returns; and
    what a run returns is [None] or an assignment that binds every modelled
    course id, once, to a day of the week and one of the time slots, and
    binds nothing else. *)
Theorem complete_or_none (fs : filesystem) (file : string)
  (data : list Course) :
  read fs file = Some data ->
  (NoDup (map id (kept data)) ->
   (forall c mt, In c (kept data) -> In mt (meeting_times c) ->
                 (length (Str.split "-" mt) <= 2)%nat) ->
   exists r, run solver fs file = Return r) /\
  (forall a, run solver fs file = Return (Some a) ->
     (forall course, In course (kept data) ->
        exists day time,
          get a (id course) = Some (day, time) /\
          In day ["Monday"; "Tuesday"; "Wednesday"; "Thursday"; "Friday"] /\
          In time _generate_time_slots) /\
     (forall c v, In (c, v) a ->
        exists course, In course (kept data) /\ id course = c) /\
     NoDup (map fst a)).
Proof.
  intros Hread. split.
  - intros Hnd Htimes. now apply run_total with (data := data).
  - intros a Hrun.
    destruct (run_solution _ _ _ Hrun) as [data' [Hread' [_ [Hk Hnd Hd _]]]].
    assert (data' = data) by congruence. subst data'.
    rewrite built_keys in Hk. split; [|split; [|assumption]].
    + intros course Hc.
      assert (Hkey : In (id course) (map fst a)).
      { apply Hk. now apply in_map. }
      destruct (get a (id course)) as [[day time]|] eqn:Hg;
        [|now apply get_None in Hg].
      exists day, time. split; [reflexivity|].
      destruct (Hd _ _ (get_In _ _ _ Hg)) as [d [Hin Hx]].
      unfold built in Hin. cbn [_variables] in Hin.
      apply in_map_iff in Hin. destruct Hin as [c' [[= _ <-] _]].
      now apply full_domain_In.
    + intros c v Hcv.
      assert (Hkey : In c (map id (kept data))).
      { apply Hk. change c with (fst (c, v)). now apply in_map. }
      apply in_map_iff in Hkey. destruct Hkey as [course [E Hc]]. eauto.
Qed.

End Returned.

(** ** Time slots and domains *)

(** The loop of [_generate_time_slots] leaves by its condition: a larger
    bound on its iterations gives the same slots. *)
Lemma while_slots_bound (k : nat) :
  while_slots (28 + k) 480%Z 1260%Z [] = _generate_time_slots.
Proof. vm_compute. reflexivity. Qed.

Lemma strptime_HM_table :
  forallb (fun h =>
    forallb (fun m =>
      match strptime_HM (two_digits (Z.of_nat h) ++ ":"
                          ++ two_digits (Z.of_nat m)) with
      | Some t => (t =? 60 * Z.of_nat h + Z.of_nat m)%Z
      | None => false
      end) (seq 0 60)) (seq 0 24) = true.
Proof. vm_compute. reflexivity. Qed.

(** What [strftime] writes, [strptime] reads back. *)
Lemma strptime_strftime_HM (t : datetime) :
  strptime_HM (strftime_HM t) = Some (60 * hour t + minute t)%Z.
Proof.
  unfold strftime_HM.
  assert (Hh : (0 <= hour t < 24)%Z) by (apply Z.mod_pos_bound; lia).
  assert (Hm : (0 <= minute t < 60)%Z) by (apply Z.mod_pos_bound; lia).
  pose proof strptime_HM_table as T. rewrite forallb_forall in T.
  specialize (T (Z.to_nat (hour t))). rewrite forallb_forall in T.
  assert (H := T ltac:(apply in_seq; lia) (Z.to_nat (minute t))
                 ltac:(apply in_seq; lia)).
  rewrite !Z2Nat.id in H by lia.
  destruct (strptime_HM _) as [x|]; [|discriminate].
  apply Z.eqb_eq in H. now subst.
Qed.

(** The bounds [_parse_time] gives are readable as "%H:%M": the lambda of
    lines 78-83 never raises on them. *)
Lemma _parse_time_readable (mt s e : string) :
  _parse_time mt = Return (Some s, Some e) ->
  exists lo hi, strptime_HM s = Some lo /\ strptime_HM e = Some hi.
Proof.
  unfold _parse_time. destruct (Str.contains "-" mt); [|discriminate].
  destruct (Str.split "-" mt) as [|a [|b [|c l]]]; try discriminate.
  destruct (strptime_IMp (am_pm a)) as [t1|]; [|discriminate].
  destruct (strptime_IMp (am_pm b)) as [t2|]; [|discriminate].
  intros [= <- <-]. rewrite !strptime_strftime_HM. eauto.
Qed.

(** So are the time slots. *)
Lemma time_slots_readable (time : string) :
  In time _generate_time_slots -> exists t, strptime_HM time = Some t.
Proof.
  assert (H : forallb (fun s => match strptime_HM s with
                                | Some _ => true
                                | None => false
                                end) _generate_time_slots = true)
    by (vm_compute; reflexivity).
  rewrite forallb_forall in H. intros Hin. specialize (H time Hin).
  destruct (strptime_HM time) as [t|]; [eauto | discriminate].
Qed.


(** ** Day codes *)

Lemma set_add_In (d x : string) (s : list string) :
  In d (set_add x s) <-> d = x \/ In d s.
Proof.
  unfold set_add. destruct (Str.mem x s) eqn:E.
  - apply mem_In in E. split; [tauto | intros [-> | H]; assumption].
  - rewrite in_app_iff. simpl. intuition congruence.
Qed.

Lemma add_days_In (valid_days : list string) (token d : string) :
  In d (add_days valid_days token) <-> In d valid_days \/ contributes token d.
Proof.
  unfold add_days, contributes.
  destruct (Str.contains "M" token), (Str.contains "T" token),
    (Str.contains "H" token), (Str.contains "W" token),
    (Str.contains "TH" token), (Str.contains "F" token);
    cbn [andb negb]; rewrite ?set_add_In; intuition congruence.
Qed.

Lemma fold_add_days_In (tokens : list string) :
  forall valid_days d,
  In d (fold_left add_days tokens valid_days) <->
  In d valid_days \/ exists token, In token tokens /\ contributes token d.
Proof.
  induction tokens as [|t ts IH]; simpl; intros s d.
  - split; [tauto | intros [H | [t [[] _]]]; assumption].
  - rewrite IH, add_days_In. split.
    + intros [[H | H] | [t' [H1 H2]]]; eauto.
    + intros [H | [t' [[<- | H1] H2]]]; eauto.
Qed.

(** The day set of a course is what its tokens contribute. *)
Lemma derived_days_In (tokens : list string) (d : string) :
  In d (derived_days tokens) <->
  exists token, In token tokens /\ contributes token d.
Proof.
  unfold derived_days. rewrite fold_add_days_In. simpl. tauto.
Qed.

(** C4, as the code has it. "MWF" gives Monday, Wednesday and Friday;
    "TTH" gives Thursday alone; a token contributes Tuesday exactly when it
    contains "T" and no "H" at all, Thursday when it contains "TH", and
    Monday, Wednesday, Friday by their letters; other letters such as "R"
    contribute no day. *)
Theorem day_decoding :
  derived_days ["MWF"] = ["Monday"; "Wednesday"; "Friday"] /\
  derived_days ["TTH"] = ["Thursday"] /\
  (forall tokens d,
     In d (derived_days tokens) <->
     exists token, In token tokens /\
       ((d = "Monday" /\ Str.contains "M" token = true) \/
        (d = "Tuesday" /\ Str.contains "T" token = true
                       /\ Str.contains "H" token = false) \/
        (d = "Wednesday" /\ Str.contains "W" token = true) \/
        (d = "Thursday" /\ Str.contains "TH" token = true) \/
        (d = "Friday" /\ Str.contains "F" token = true))) /\
  derived_days ["R"] = [] /\
  derived_days ["TR"] = ["Tuesday"].
Proof.
  repeat split; try reflexivity; apply derived_days_In.
Qed.

(** C4 as stated fails: the day set of "TTH" is not Tuesday and
    Thursday. *)
Lemma day_decoding_TTH :
  ~ (forall d, In d (derived_days ["TTH"]) <-> In d ["Tuesday"; "Thursday"]).
Proof.
  intros H. assert (Hin : In "Tuesday" (derived_days ["TTH"])).
  { apply H. now left. }
  vm_compute in Hin. destruct Hin as [E | []]. discriminate.
Qed.

(** ** Malformed meeting times *)

Lemma duration_loop_skip (course_id s : string) (after : list string)
  (p : Problem) :
  _parse_time s = Return (None, None) ->
  duration_loop course_id (s :: after) p = duration_loop course_id after p.
Proof.
  intros H. cbn [duration_loop]. rewrite H. cbn [bind].
  now destruct (negb (String.eqb s "TBA")).
Qed.

Lemma duration_loop_congr (course_id : string) (before l1 l2 : list string) :
  (forall p, duration_loop course_id l1 p = duration_loop course_id l2 p) ->
  forall p, duration_loop course_id (before ++ l1) p
            = duration_loop course_id (before ++ l2) p.
Proof.
  intros H. induction before as [|x before IH]; intros p; [apply H|].
  cbn [app duration_loop].
  destruct (negb (String.eqb x "TBA")); [|apply IH].
  destruct (_parse_time x) as [[[s|] [e|]]|]; cbn [bind];
    try apply IH; try reflexivity.
  destruct (truthy (Some s) && truthy (Some e)); apply IH.
Qed.

(** With one hyphen at most the code does what the claim on malformed
    strings says. On a meeting-time string with no hyphen, or with two halves
    one of which is no 12-hour clock time, [_parse_time] returns (None, None)
    and does not raise; and the loop of [add_duration_constraints] then goes
    on as if the entry were not there: it adds no constraint for it and
    treats the course's other entries as before. *)
Lemma malformed_time_no_window (s : string) :
  Str.contains "-" s = false \/
  (exists a b, Str.split "-" s = [a; b] /\
     (strptime_IMp (am_pm a) = None \/ strptime_IMp (am_pm b) = None)) ->
  _parse_time s = Return (None, None) /\
  forall course_id before after p,
    duration_loop course_id (before ++ s :: after) p
    = duration_loop course_id (before ++ after) p.
Proof.
  intros H.
  assert (Hparse : _parse_time s = Return (None, None)).
  { unfold _parse_time. destruct (Str.contains "-" s); [|reflexivity].
    destruct H as [H | [a [b [-> H]]]]; [discriminate|].
    destruct (strptime_IMp (am_pm a)); [|reflexivity].
    destruct H as [H | ->]; [discriminate | reflexivity]. }
  split; [assumption|]. intros course_id before after p.
  apply duration_loop_congr. intros q. now apply duration_loop_skip.
Qed.

(** With two hyphens or more the unpacking of line 35 raises, outside the
    [try]. *)
Lemma _parse_time_raises (s : string) :
  (2 < length (Str.split "-" s))%nat -> _parse_time s = Raise ValueError.
Proof.
  intros H. unfold _parse_time.
  assert (Hc : Str.contains "-" s = true).
  { destruct (Str.contains "-" s) eqn:E; [reflexivity|]. exfalso.
    revert H E. induction s as [|c s IH]; [simpl; lia|].
    cbn [Str.contains Str.split]. rewrite prefix_char.
    destruct (Ascii.eqb c "-"); [discriminate|]. simpl. intros H E.
    apply IH; [|assumption].
    destruct (Str.split "-" s); simpl in *; lia. }
  rewrite Hc. destruct (Str.split "-" s) as [|a [|b [|c l]]];
    simpl in H; try lia. reflexivity.
Qed.

(** ** No course to schedule *)

Lemma fold_preProcess_nil (cs : list constraint) :
  fold_left (fun d c => preProcess c d) cs [] = [].
Proof.
  induction cs as [|c cs IH]; [reflexivity|]. cbn [fold_left].
  replace (preProcess c []) with (@nil (string * Domain)); [exact IH|].
  unfold preProcess. now destruct (snd c) as [|v [|w vs]].
Qed.

Lemma getSolution_no_variable (solver : Solver) (h : cells) (p : Problem) :
  _variables p = [] -> getSolution solver h p = None.
Proof.
  intros H. unfold getSolution, _getArgs. rewrite H. cbn [map].
  now rewrite fold_preProcess_nil.
Qed.

Lemma read_write (fs : filesystem) (name : string) (data : list Course) :
  read (write fs name data) name = Some data.
Proof. unfold write. simpl. now rewrite String.eqb_refl. Qed.

Lemma run_nothing_kept (solver : Solver) (fs : filesystem) (file : string)
  (data : list Course) :
  read fs file = Some data -> kept data = [] ->
  run solver fs file = Return None.
Proof.
  intros Hread Hkept.
  destruct (run_total solver fs file data Hread) as [r Hr].
  - rewrite Hkept. constructor.
  - rewrite Hkept. intros c mt [].
  - rewrite Hr. f_equal.
    destruct (run_Return _ _ _ _ Hr) as [data' [Hread' [_ ->]]].
    assert (data' = data) by congruence. subst data'.
    apply getSolution_no_variable. now rewrite Hkept.
Qed.

(** C10, as the code has it. When no course is kept (nothing was selected,
    or every selected course has a "TBA" meeting time), a run returns
    [None], the no-solution signal; the handler's truth test takes [None]
    and an empty mapping alike for a failure and answers that there is no
    valid schedule. *)
Theorem empty_model_no_schedule (solver : Solver) :
  (forall fs file data,
     read fs file = Some data -> kept data = [] ->
     run solver fs file = Return None) /\
  solution_truthy None = false /\
  solution_truthy (Some []) = false /\
  (forall all_courses fs selected_course_ids,
     kept (filter (fun course => Str.mem (id course) selected_course_ids)
             all_courses) = [] ->
     fst (optimize_schedule solver all_courses fs selected_course_ids)
     = Return (NoSchedule
                 "No valid schedule found with the selected courses.")).
Proof.
  split; [intros; now apply run_nothing_kept with (data := data)|].
  split; [reflexivity|]. split; [reflexivity|].
  intros all_courses fs ids Hkept. unfold optimize_schedule. cbn [fst].
  rewrite (run_nothing_kept solver _ _ _ (read_write _ _ _) Hkept).
  reflexivity.
Qed.

(** C10 as stated fails: with no course the run returns [None], not the
    empty mapping, whatever the solver. *)
Lemma empty_model_returns_None :
  (forall solver,
     run solver [("selected_courses.json", [])] "selected_courses.json"
     = Return None) /\
  (forall solver,
     run solver [("selected_courses.json", [])] "selected_courses.json"
     <> Return (Some [])).
Proof.
  assert (H : forall solver,
            run solver [("selected_courses.json", [])] "selected_courses.json"
            = Return None).
  { intros solver. now apply run_nothing_kept with (data := []). }
  split; [exact H|]. intros solver. rewrite H. discriminate.
Qed.

(** ** Day membership *)

Section DayMembership.

Variable solver : Solver.
Hypothesis solver_lawful : lawful solver.

(** What the code does establish: the day of a course with a day
    constraint lies in the set [valid_days] names when the loop of
    [add_day_constraints] is over, the day set of the last course whose
    days were looked at. *)
Lemma day_in_last_valid_days (fs : filesystem) (file : string)
  (data : list Course) (a : assignments) (course : Course)
  (day time : string) :
  read fs file = Some data ->
  run solver fs file = Return (Some a) ->
  In course (kept data) ->
  has_days course = true ->
  derived_days (meeting_days course) <> [] ->
  In (id course, (day, time)) a ->
  In day (valid_days (final_cells (kept data))).
Proof.
  intros Hread Hrun Hcourse Hdays Hne Hin.
  destruct (run_solution solver solver_lawful _ _ _ Hrun)
    as [data' [Hread' [_ [_ Hnd _ Hc]]]].
  assert (data' = data) by congruence. subst data'.
  set (cs := kept data) in *.
  assert (Hcall := Hc (day_lambda (final_cells cs), [id course])).
  rewrite (call_one _ a (id course) (day, time)) in Hcall
    by (auto; reflexivity).
  apply mem_In. apply Hcall. apply at_call_In. unfold built.
  cbn [_constraints]. apply in_or_app. right. apply in_or_app. right.
  now apply day_constraints_In.
Qed.

(** On the two courses every lawful solver puts course A on a Tuesday or
    a Thursday, the days of course B. *)
Lemma course_A_on_days_of_B (a : assignments) (day time : string) :
  run solver two_courses "data.json" = Return (Some a) ->
  In ("A", (day, time)) a ->
  In day ["Tuesday"; "Thursday"].
Proof.
  intros Hrun Hin.
  apply (day_in_last_valid_days two_courses "data.json"
           [course_A; course_B] a course_A day time);
    try reflexivity; try assumption.
  - simpl. now left.
  - discriminate.
Qed.

Lemma full_domain_intro (day time : string) :
  In day ["Monday"; "Tuesday"; "Wednesday"; "Thursday"; "Friday"] ->
  In time _generate_time_slots ->
  In (day, time) full_domain.
Proof.
  intros Hd Ht. unfold full_domain. apply in_flat_map. exists day.
  split; [assumption|]. now apply in_map.
Qed.

(** The two courses have a schedule under the constraints as they are
    called. *)
Lemma two_courses_schedule_solution :
  is_solution (_variables (built (kept [course_A; course_B])))
    (at_call (final_cells (kept [course_A; course_B]))
       (built (kept [course_A; course_B])))
    two_courses_schedule.
Proof.
  constructor.
  - intros v. rewrite built_keys. simpl. tauto.
  - simpl. repeat constructor; simpl; intuition discriminate.
  - intros v x Hin. exists full_domain.
    destruct Hin as [[= <- <-] | [[= <- <-] | []]];
      (split; [simpl; auto|]); apply full_domain_intro;
      try (simpl; tauto); apply mem_In; vm_compute; reflexivity.
  - assert (H : forallb (fun c => call c two_courses_schedule)
                  (at_call (final_cells (kept [course_A; course_B]))
                     (built (kept [course_A; course_B]))) = true)
      by (vm_compute; reflexivity).
    rewrite forallb_forall in H. exact H.
Qed.

(** So every lawful solver finds one. *)
Lemma run_two_courses_returns :
  exists a, run solver two_courses "data.json" = Return (Some a).
Proof.
  destruct (run_total solver two_courses "data.json" [course_A; course_B])
    as [r Hr].
  - reflexivity.
  - simpl. repeat constructor; simpl; intuition discriminate.
  - simpl. intros c mt [<- | [<- | []]] [<- | []]; vm_compute; lia.
  - destruct r as [a|]; [eauto|]. exfalso.
    destruct (run_Return _ _ _ _ Hr) as [data [Hread [Hnd Hnone]]].
    injection Hread as <-.
    apply (getSolution_complete solver solver_lawful _ _
             (built_well_built _ Hnd) ltac:(discriminate)
             (eq_sym Hnone) two_courses_schedule).
    exact two_courses_schedule_solution.
Qed.

End DayMembership.

(** C1 fails on the code. Course A meets on Monday, Wednesday and Friday,
    course B on Tuesday and Thursday. Whatever lawful solver is used, the
    run returns an assignment, and the day it gives course A is none of
    course A's days; with the backtracking search it is a Tuesday. *)
Theorem day_membership_violated :
  derived_days (meeting_days course_A) = ["Monday"; "Wednesday"; "Friday"] /\
  (forall solver, lawful solver ->
     exists a,
       run solver two_courses "data.json" = Return (Some a) /\
       forall day time,
         In (id course_A, (day, time)) a ->
         ~ In day (derived_days (meeting_days course_A))) /\
  run BacktrackingSolver two_courses "data.json"
  = Return (Some two_courses_schedule).
Proof.
  split; [reflexivity|]. split; [|vm_compute; reflexivity].
  intros solver Hlaw.
  destruct (run_two_courses_returns solver Hlaw) as [a Ha].
  exists a. split; [assumption|]. intros day time Hin Hday.
  pose proof (course_A_on_days_of_B solver Hlaw a day time Ha Hin) as Hb.
  vm_compute in Hday.
  destruct Hb as [<- | [<- | []]];
    destruct Hday as [E | [E | [E | []]]]; discriminate.
Qed.

(** ** The theorems at concrete inputs *)

Lemma run_two_courses :
  run BacktrackingSolver two_courses "data.json"
  = Return (Some two_courses_schedule).
Proof. vm_compute. reflexivity. Defined.

Lemma run_three_courses :
  run BacktrackingSolver three_courses "data.json"
  = Return (Some two_courses_schedule).
Proof. vm_compute. reflexivity. Defined.

Lemma no_collision_witness :
  run BacktrackingSolver two_courses "data.json"
  = Return (Some two_courses_schedule) /\
  (fst ("Tuesday", "08:00") <> fst ("Tuesday", "08:30") \/
   snd ("Tuesday", "08:00") <> snd ("Tuesday", "08:30")).
Proof.
  split; [exact run_two_courses|].
  apply (no_collision BacktrackingSolver BacktrackingSolver_lawful
           two_courses "data.json" two_courses_schedule "A" "B").
  - exact run_two_courses.
  - simpl. auto.
  - simpl. auto.
  - discriminate.
Defined.

Lemma window_membership_witness :
  _parse_time "8:00a-9:15a" = Return (Some "08:00", Some "09:15") /\
  exists t lo hi,
    strptime_HM "08:00" = Some t /\ strptime_HM "08:00" = Some lo /\
    strptime_HM "09:15" = Some hi /\ (lo <= t <= hi)%Z.
Proof.
  split; [vm_compute; reflexivity|].
  apply (window_membership BacktrackingSolver BacktrackingSolver_lawful
           two_courses "data.json" [course_A; course_B] two_courses_schedule
           course_A "8:00a-9:15a" "08:00" "09:15" "Tuesday" "08:00").
  - reflexivity.
  - exact run_two_courses.
  - simpl. auto.
  - simpl. auto.
  - vm_compute. reflexivity.
  - simpl. auto.
Defined.

Lemma tba_exclusion_witness :
  In "TBA" (meeting_times course_T) /\
  (forall optimizer, __init__ three_courses "data.json" = Return optimizer ->
     ~ In course_T (courses optimizer) /\
     forall optimizer', setup_variables optimizer = Return optimizer' ->
       ~ In (id course_T) (map fst (_variables (problem optimizer')))) /\
  (forall a, run BacktrackingSolver three_courses "data.json"
             = Return (Some a) ->
     get a (id course_T) = None).
Proof.
  split; [simpl; auto|].
  apply (tba_exclusion BacktrackingSolver BacktrackingSolver_lawful
           three_courses "data.json" [course_A; course_T; course_B] course_T).
  - reflexivity.
  - simpl. repeat constructor; simpl; intuition discriminate.
  - simpl. auto.
  - simpl. auto.
Defined.

Lemma complete_or_none_witness :
  (exists r, run BacktrackingSolver three_courses "data.json" = Return r) /\
  (forall a, run BacktrackingSolver three_courses "data.json"
             = Return (Some a) ->
     (forall course, In course [course_A; course_B] ->
        exists day time,
          get a (id course) = Some (day, time) /\
          In day ["Monday"; "Tuesday"; "Wednesday"; "Thursday"; "Friday"] /\
          In time _generate_time_slots) /\
     (forall c v, In (c, v) a ->
        exists course, In course [course_A; course_B] /\ id course = c) /\
     NoDup (map fst a)).
Proof.
  destruct (complete_or_none BacktrackingSolver BacktrackingSolver_lawful
              three_courses "data.json" [course_A; course_T; course_B]
              eq_refl) as [Hreturns Hcomplete].
  split; [|exact Hcomplete]. apply Hreturns.
  - simpl. repeat constructor; simpl; intuition discriminate.
  - simpl. intros c mt [<- | [<- | []]] [<- | []]; vm_compute; lia.
Defined.

Lemma malformed_time_no_window_witness :
  Str.contains "-" "noon" = false /\
  _parse_time "noon" = Return (None, None) /\
  forall course_id before after p,
    duration_loop course_id (before ++ "noon" :: after) p
    = duration_loop course_id (before ++ after) p.
Proof.
  split; [reflexivity|].
  apply (malformed_time_no_window "noon"). left. reflexivity.
Defined.


Lemma empty_model_no_schedule_witness :
  run BacktrackingSolver [("data.json", [course_T])] "data.json"
  = Return None /\
  fst (optimize_schedule BacktrackingSolver [course_A; course_T; course_B]
         [] ["T"])
  = Return (NoSchedule "No valid schedule found with the selected courses.").
Proof.
  destruct (empty_model_no_schedule BacktrackingSolver) as [Hrun [_ [_ Happ]]].
  split.
  - apply (Hrun [("data.json", [course_T])] "data.json" [course_T]);
      reflexivity.
  - apply Happ. reflexivity.
Defined.

(** * Further properties *)

(** ** What a run's answer means *)

Lemma all_duration_constraints_inv (cs : list Course)
  (cv : callable * list string) :
  In cv (all_duration_constraints cs) ->
  exists c mt s e,
    In c cs /\ In mt (meeting_times c) /\
    _parse_time mt = Return (Some s, Some e) /\
    cv = (duration_lambda s e, [id c]).
Proof.
  unfold all_duration_constraints. intros H. apply in_flat_map in H.
  destruct H as [c [Hc H]]. unfold duration_constraints in H.
  apply in_flat_map in H. destruct H as [mt [Hmt H]].
  destruct (negb (String.eqb mt "TBA")); [|contradiction].
  destruct (_parse_time mt) as [[[s|] [e|]]|] eqn:Hp; try contradiction.
  destruct (truthy (Some s) && truthy (Some e)); [|contradiction].
  destruct H as [<- | []]. exists c, mt, s, e. repeat split; assumption.
Qed.

Lemma day_constraints_inv (cs : list Course) (cv : callable * list string) :
  In cv (day_constraints cs) ->
  exists c, In c cs /\ has_days c = true /\
            derived_days (meeting_days c) <> [] /\ cv = (day_lambda, [id c]).
Proof.
  unfold day_constraints. intros H. apply in_flat_map in H.
  destruct H as [c [Hc H]]. exists c.
  destruct (has_days c); [|contradiction].
  destruct (derived_days (meeting_days c)) eqn:E; [contradiction|].
  destruct H as [<- | []]. repeat split; [assumption | discriminate].
Qed.

Lemma time_constraints_inv (ids : list string) (cv : callable * list string) :
  In cv (time_constraints ids) ->
  exists i j, (i < j)%nat /\ (j < length ids)%nat /\
              cv = (time_lambda, [nth i ids ""; nth j ids ""]).
Proof.
  unfold time_constraints, range. intros H. apply in_flat_map in H.
  destruct H as [i [Hi H]]. apply in_map_iff in H.
  destruct H as [j [<- Hj]]. apply in_seq in Hi, Hj.
  exists i, j. repeat split; lia.
Qed.

Lemma time_lambda_distinct (h : cells) (v w : value) :
  v <> w -> time_lambda h [v; w] = true.
Proof.
  intros Hne. unfold time_lambda. destruct v as [d1 t1], w as [d2 t2]. simpl.
  destruct (String.eqb_spec d1 d2) as [->|]; [|reflexivity].
  destruct (String.eqb_spec t1 t2) as [->|]; [congruence | reflexivity].
Qed.

Lemma keys_get (a : assignments) (v : string) :
  In v (map fst a) -> exists x, get a v = Some x.
Proof.
  intros H. destruct (get a v) as [x|] eqn:E; [eauto|].
  now apply get_None in E.
Qed.

(** An assignment that meets the constraints in words solves the built
    problem. *)
Lemma feasible_solution (cs : list Course) (a : assignments) :
  NoDup (map id cs) -> feasible cs a ->
  is_solution (_variables (built cs)) (at_call (final_cells cs) (built cs)) a.
Proof.
  intros Hids [Hk Hn Hd Hdist Hwin Hday]. constructor.
  - intros v. now rewrite built_keys.
  - assumption.
  - intros v [day time] Hin. exists full_domain. split.
    + unfold built. cbn [_variables].
      assert (Hv : In v (map id cs)).
      { apply Hk. change v with (fst (v, (day, time))). now apply in_map. }
      apply in_map_iff in Hv. destruct Hv as [c [<- Hc]].
      apply in_map_iff. now exists c.
    + destruct (Hd _ _ _ Hin). now apply full_domain_intro.
  - intros c Hc. unfold at_call in Hc. apply in_map_iff in Hc.
    destruct Hc as [cv [<- Hcv]]. unfold built in Hcv. cbn [_constraints] in Hcv.
    apply in_app_or in Hcv. destruct Hcv as [H | H].
    + apply time_constraints_inv in H. destruct H as [i [j [Hij [Hj ->]]]].
      cbn [fst snd].
      set (x := nth i (map id cs) ""). set (y := nth j (map id cs) "").
      assert (Hx : In x (map fst a)) by (apply Hk, nth_In; lia).
      assert (Hy : In y (map fst a)) by (apply Hk, nth_In; lia).
      destruct (keys_get _ _ Hx) as [v Hv], (keys_get _ _ Hy) as [w Hw].
      rewrite (call_two (time_lambda (final_cells cs), [x; y]) a x y v w
                 eq_refl Hn (get_In _ _ _ Hv) (get_In _ _ _ Hw)).
      cbn [fst]. apply time_lambda_distinct.
      apply (Hdist x y); try now apply get_In.
      unfold x, y. intros E.
      apply (proj1 (NoDup_nth (map id cs) "") Hids) in E; lia.
    + apply in_app_or in H. destruct H as [H | H].
      * apply all_duration_constraints_inv in H.
        destruct H as [course [mt [s [e [Hc [Hmt [Hp ->]]]]]]]. cbn [fst snd].
        assert (Hx : In (id course) (map fst a)) by (apply Hk; now apply in_map).
        destruct (keys_get _ _ Hx) as [[day time] Hv].
        rewrite (call_one (duration_lambda s e (final_cells cs), [id course])
                   a (id course) (day, time) eq_refl Hn (get_In _ _ _ Hv)).
        cbn [fst].
        destruct (Hwin course mt s e day time Hc Hmt Hp (get_In _ _ _ Hv))
          as [t [lo [hi [Ht [Hlo [Hhi Hb]]]]]].
        unfold duration_lambda. cbn [snd]. rewrite Ht, Hlo, Hhi.
        apply andb_true_iff. split; apply Z.leb_le; lia.
      * apply day_constraints_inv in H.
        destruct H as [course [Hc [Hhas [Hne ->]]]]. cbn [fst snd].
        assert (Hx : In (id course) (map fst a)) by (apply Hk; now apply in_map).
        destruct (keys_get _ _ Hx) as [[day time] Hv].
        rewrite (call_one (day_lambda (final_cells cs), [id course])
                   a (id course) (day, time) eq_refl Hn (get_In _ _ _ Hv)).
        cbn [fst]. unfold day_lambda. cbn [fst]. apply mem_In.
        now apply (Hday course day time Hc Hhas Hne (get_In _ _ _ Hv)).
Qed.

Section Meaning.

Variable solver : Solver.
Hypothesis solver_lawful : lawful solver.

(** And a returned assignment meets them. *)
Lemma run_feasible (fs : filesystem) (file : string) (data : list Course)
  (a : assignments) :
  read fs file = Some data ->
  run solver fs file = Return (Some a) ->
  feasible (kept data) a.
Proof.
  intros Hread Hrun.
  destruct (run_solution solver solver_lawful _ _ _ Hrun)
    as [data' [Hread' [Hids [Hk Hn Hd Hc]]]].
  assert (data' = data) by congruence. subst data'.
  set (cs := kept data) in *. rewrite built_keys in Hk.
  assert (Hcons : forall f vars, In (f, vars) (_constraints (built cs)) ->
                  call (f (final_cells cs), vars) a = true).
  { intros f vars H. apply Hc. now apply at_call_In. }
  constructor.
  - exact Hk.
  - exact Hn.
  - intros v day time Hin. destruct (Hd _ _ Hin) as [d [Hvd Hx]].
    unfold built in Hvd. cbn [_variables] in Hvd. apply in_map_iff in Hvd.
    destruct Hvd as [c [[= _ <-] _]]. now apply full_domain_In.
  - intros c1 c2 v1 v2 H1 H2 Hne Hv. subst v2.
    assert (Hin : forall c, In (c, v1) a ->
                  exists i, (i < length (map id cs))%nat /\
                            nth i (map id cs) "" = c).
    { intros c Hcv. apply In_nth. apply Hk.
      change c with (fst (c, v1)). now apply in_map. }
    destruct (Hin _ H1) as [i [Hi Ei]], (Hin _ H2) as [j [Hj Ej]].
    assert (Hsym : forall i j x y, (i < j)%nat -> (j < length (map id cs))%nat ->
              nth i (map id cs) "" = x -> nth j (map id cs) "" = y ->
              In (x, v1) a -> In (y, v1) a -> False).
    { intros i' j' x y Hlt Hj' Ex Ey Hx Hy.
      pose proof (time_constraints_In (map id cs) i' j' Hlt Hj') as Hmem.
      rewrite Ex, Ey in Hmem.
      assert (Hcall := Hcons time_lambda [x; y]).
      rewrite (call_two (time_lambda (final_cells cs), [x; y]) a x y v1 v1
                 eq_refl Hn Hx Hy) in Hcall.
      destruct (time_lambda_true (final_cells cs) v1 v1) as [E | E];
        [|now apply E | now apply E].
      apply Hcall. unfold built. cbn [_constraints].
      apply in_or_app. now left. }
    destruct (Nat.lt_total i j) as [Hlt | [-> | Hlt]].
    + exact (Hsym i j c1 c2 Hlt Hj Ei Ej H1 H2).
    + congruence.
    + exact (Hsym j i c2 c1 Hlt Hi Ej Ei H2 H1).
  - intros course mt s e day time Hcourse Hmt Hp Hin.
    assert (Hcall := Hcons (duration_lambda s e) [id course]).
    rewrite (call_one (duration_lambda s e (final_cells cs), [id course])
               a (id course) (day, time) eq_refl Hn Hin) in Hcall.
    cbn [fst] in Hcall.
    assert (Htrue : duration_lambda s e (final_cells cs) [(day, time)] = true).
    { apply Hcall. unfold built. cbn [_constraints].
      apply in_or_app. right. apply in_or_app. left.
      now apply all_duration_constraints_In with (mt := mt). }
    unfold duration_lambda in Htrue. cbn [snd] in Htrue.
    destruct (strptime_HM time) as [t|]; [|discriminate].
    destruct (strptime_HM s) as [lo|]; [|discriminate].
    destruct (strptime_HM e) as [hi|]; [|discriminate].
    exists t, lo, hi. apply andb_true_iff in Htrue.
    destruct Htrue as [Hlo Hhi]. apply Z.leb_le in Hlo, Hhi.
    repeat split; assumption.
  - intros course day time Hcourse Hhas Hne Hin.
    assert (Hcall := Hcons day_lambda [id course]).
    rewrite (call_one (day_lambda (final_cells cs), [id course])
               a (id course) (day, time) eq_refl Hn Hin) in Hcall.
    apply mem_In. apply Hcall. unfold built. cbn [_constraints].
    apply in_or_app. right. apply in_or_app. right.
    now apply day_constraints_In.
Qed.

(** X1. What a run returns is exact. An assignment it returns meets every
    constraint of the model: all kept courses bound to a day and a slot,
    no two to the same pair, each slot in all of the course's windows, each
    constrained day in the set [valid_days] names at the call. And when it
    returns [None] although courses were kept, no assignment meets them. *)
Theorem run_answer_exact (fs : filesystem) (file : string)
  (data : list Course) :
  read fs file = Some data ->
  (forall a, run solver fs file = Return (Some a) -> feasible (kept data) a) /\
  (run solver fs file = Return None -> kept data <> [] ->
   forall a, ~ feasible (kept data) a).
Proof.
  intros Hread. split.
  - intros a. now apply run_feasible.
  - intros Hrun Hne a Hfeas.
    destruct (run_Return _ _ _ _ Hrun) as [data' [Hread' [Hids Hnone]]].
    assert (data' = data) by congruence. subst data'.
    refine (getSolution_complete solver solver_lawful
              (final_cells (kept data)) (built (kept data))
              (built_well_built _ Hids) _ (eq_sym Hnone) a _).
    + unfold built. cbn [_variables].
      destruct (kept data); [congruence | discriminate].
    + now apply feasible_solution.
Qed.

End Meaning.

(** ** Inputs without a schedule *)

Lemma time_slots_minutes (time : string) (t : datetime) :
  In time _generate_time_slots -> strptime_HM time = Some t ->
  exists k, (k < 27)%nat /\ t = (480 + 30 * Z.of_nat k)%Z.
Proof.
  assert (H : forallb (fun s =>
                match strptime_HM s with
                | Some x => existsb (fun k => (x =? 480 + 30 * Z.of_nat k)%Z)
                              (seq 0 27)
                | None => true
                end) _generate_time_slots = true)
    by (vm_compute; reflexivity).
  rewrite forallb_forall in H. intros Hin Ht. specialize (H time Hin).
  rewrite Ht in H. apply existsb_exists in H. destruct H as [k [Hk E]].
  apply in_seq in Hk. apply Z.eqb_eq in E. exists k. split; [lia | assumption].
Qed.

Lemma feasible_bound (cs : list Course) (a : assignments) (course : Course) :
  feasible cs a -> In course cs ->
  exists day time, In (id course, (day, time)) a.
Proof.
  intros [Hk _ _ _ _ _] Hc.
  assert (Hx : In (id course) (map fst a)) by (apply Hk; now apply in_map).
  destruct (keys_get _ _ Hx) as [[day time] Hv].
  exists day, time. now apply get_In.
Qed.

Lemma last_valid_days_none (cs : list Course) (h : cells) :
  (forall c, In c cs -> has_days c = false) -> last_valid_days cs h = h.
Proof.
  revert h. induction cs as [|c cs IH]; intros h H; [reflexivity|].
  unfold last_valid_days. cbn [fold_left].
  rewrite (H c (or_introl eq_refl)). apply IH. intros c' Hc'. apply H.
  now right.
Qed.

(** The cell of [valid_days] after the loop holds the day set of the last
    course without "TBA" among its days. *)
Lemma final_cells_last (before after : list Course) (last : Course) :
  has_days last = true ->
  (forall c, In c after -> has_days c = false) ->
  final_cells (before ++ last :: after)
  = {| valid_days := derived_days (meeting_days last) |}.
Proof.
  intros Hlast Hafter. unfold final_cells, last_valid_days.
  rewrite fold_left_app. cbn [fold_left]. rewrite Hlast.
  now apply last_valid_days_none.
Qed.

Section NoSchedule.

Variable solver : Solver.
Hypothesis solver_lawful : lawful solver.

(** X2. A window that holds none of the 27 slots - one whose end is before
    its start, one before 08:00 or after 21:00, one between two half-hour
    marks - leaves the whole selection without a schedule: a run that
    returns, returns [None]. *)
Theorem window_without_slot (fs : filesystem) (file : string)
  (data : list Course) (course : Course) (mt s e : string)
  (lo hi : datetime) (r : option assignments) :
  read fs file = Some data ->
  In course (kept data) ->
  In mt (meeting_times course) ->
  _parse_time mt = Return (Some s, Some e) ->
  strptime_HM s = Some lo ->
  strptime_HM e = Some hi ->
  (forall k, (k < 27)%nat -> ~ (lo <= 480 + 30 * Z.of_nat k <= hi)%Z) ->
  run solver fs file = Return r ->
  r = None.
Proof.
  intros Hread Hc Hmt Hp Hlo Hhi Hnone Hrun.
  destruct r as [a|]; [exfalso | reflexivity].
  pose proof (run_feasible solver solver_lawful _ _ _ _ Hread Hrun) as Hf.
  destruct (feasible_bound _ _ _ Hf Hc) as [day [time Hin]].
  destruct (feas_window _ _ Hf course mt s e day time Hc Hmt Hp Hin)
    as [t [lo' [hi' [Ht [Hlo' [Hhi' Hb]]]]]].
  assert (lo' = lo) by congruence. assert (hi' = hi) by congruence. subst.
  destruct (feas_domain _ _ Hf _ _ _ Hin) as [_ Hslot].
  destruct (time_slots_minutes _ _ Hslot Ht) as [k [Hk ->]].
  exact (Hnone k Hk Hb).
Qed.

(** X3. The windows of one course are all asked of its one slot: two
    meeting times of a course whose windows do not meet leave the selection
    without a schedule. *)
Theorem disjoint_windows (fs : filesystem) (file : string)
  (data : list Course) (course : Course) (mt1 mt2 s1 e1 s2 e2 : string)
  (hi1 lo2 : datetime) (r : option assignments) :
  read fs file = Some data ->
  In course (kept data) ->
  In mt1 (meeting_times course) ->
  In mt2 (meeting_times course) ->
  _parse_time mt1 = Return (Some s1, Some e1) ->
  _parse_time mt2 = Return (Some s2, Some e2) ->
  strptime_HM e1 = Some hi1 ->
  strptime_HM s2 = Some lo2 ->
  (hi1 < lo2)%Z ->
  run solver fs file = Return r ->
  r = None.
Proof.
  intros Hread Hc Hmt1 Hmt2 Hp1 Hp2 Hhi Hlo Hlt Hrun.
  destruct r as [a|]; [exfalso | reflexivity].
  pose proof (run_feasible solver solver_lawful _ _ _ _ Hread Hrun) as Hf.
  destruct (feasible_bound _ _ _ Hf Hc) as [day [time Hin]].
  destruct (feas_window _ _ Hf course mt1 s1 e1 day time Hc Hmt1 Hp1 Hin)
    as [t [la [ha [Ht [_ [Hha Hb1]]]]]].
  destruct (feas_window _ _ Hf course mt2 s2 e2 day time Hc Hmt2 Hp2 Hin)
    as [t' [lb [hb [Ht' [Hlb [_ Hb2]]]]]].
  assert (t' = t) by congruence. assert (ha = hi1) by congruence.
  assert (lb = lo2) by congruence. subst. lia.
Qed.

Lemma NoDup_values (a : assignments) :
  NoDup (map fst a) ->
  (forall c1 c2 v1 v2, In (c1, v1) a -> In (c2, v2) a -> c1 <> c2 -> v1 <> v2) ->
  NoDup (map snd a).
Proof.
  induction a as [|[c v] a IH]; simpl; intros Hn Hd; [constructor|].
  inversion Hn as [|? ? Hnotin Hn']; subst. constructor.
  - intros Hin. apply in_map_iff in Hin. destruct Hin as [[c' v'] [E Hin]].
    simpl in E. subst v'.
    apply (Hd c c' v v); [now left | now right | | reflexivity].
    intros ->. apply Hnotin. change c' with (fst (c', v)). now apply in_map.
  - apply IH; [assumption|]. intros c1 c2 v1 v2 H1 H2.
    apply Hd; now right.
Qed.

(** X4. There are 135 (day, slot) pairs and no two courses share one: an
    assignment is returned only for at most 135 kept courses. *)
Theorem capacity (fs : filesystem) (file : string) (data : list Course)
  (a : assignments) :
  read fs file = Some data ->
  run solver fs file = Return (Some a) ->
  (length (kept data) <= 135)%nat /\ length a = length (kept data).
Proof.
  intros Hread Hrun.
  pose proof (run_feasible solver solver_lawful _ _ _ _ Hread Hrun) as Hf.
  destruct (run_Return _ _ _ _ Hrun) as [data' [Hread' [Hids _]]].
  assert (data' = data) by congruence. subst data'.
  assert (Hlen : length a = length (kept data)).
  { rewrite <- (length_map fst a), <- (length_map id (kept data)).
    apply Permutation_length. apply NoDup_Permutation;
      [exact (feas_nodup _ _ Hf) | exact Hids | exact (feas_keys _ _ Hf)]. }
  split; [|assumption]. rewrite <- Hlen, <- (length_map snd a).
  change 135%nat with (length full_domain).
  apply NoDup_incl_length.
  - apply NoDup_values; [exact (feas_nodup _ _ Hf) | exact (feas_distinct _ _ Hf)].
  - intros [day time] Hin. apply in_map_iff in Hin.
    destruct Hin as [[c v] [E Hin]]. simpl in E. subst v.
    destruct (feas_domain _ _ Hf _ _ _ Hin). now apply full_domain_intro.
Qed.

(** X5. The day constraints as the code evaluates them: every course with
    a day constraint is put on a day of the last kept course that has no
    "TBA" among its days - its own days only when it is that course. *)
Theorem day_of_last_course (fs : filesystem) (file : string)
  (data before after : list Course) (last course : Course)
  (a : assignments) (day time : string) :
  read fs file = Some data ->
  kept data = before ++ last :: after ->
  has_days last = true ->
  (forall c, In c after -> has_days c = false) ->
  run solver fs file = Return (Some a) ->
  In course (kept data) ->
  has_days course = true ->
  derived_days (meeting_days course) <> [] ->
  In (id course, (day, time)) a ->
  In day (derived_days (meeting_days last)).
Proof.
  intros Hread Hsplit Hlast Hafter Hrun Hc Hhas Hne Hin.
  pose proof (run_feasible solver solver_lawful _ _ _ _ Hread Hrun) as Hf.
  pose proof (feas_day _ _ Hf course day time Hc Hhas Hne Hin) as Hday.
  rewrite Hsplit in Hday.
  now rewrite (final_cells_last before after last Hlast Hafter) in Hday.
Qed.

(** X6. When the last kept course without "TBA" among its days has tokens
    that stand for no day, every day constraint added before tests an empty
    set: if any course has a day constraint, a run that returns, returns
    [None]. *)
Theorem empty_last_day_set (fs : filesystem) (file : string)
  (data before after : list Course) (last course : Course)
  (r : option assignments) :
  read fs file = Some data ->
  kept data = before ++ last :: after ->
  has_days last = true ->
  (forall c, In c after -> has_days c = false) ->
  derived_days (meeting_days last) = [] ->
  In course (kept data) ->
  has_days course = true ->
  derived_days (meeting_days course) <> [] ->
  run solver fs file = Return r ->
  r = None.
Proof.
  intros Hread Hsplit Hlast Hafter Hempty Hc Hhas Hne Hrun.
  destruct r as [a|]; [exfalso | reflexivity].
  pose proof (run_feasible solver solver_lawful _ _ _ _ Hread Hrun) as Hf.
  destruct (feasible_bound _ _ _ Hf Hc) as [day [time Hin]].
  pose proof (feas_day _ _ Hf course day time Hc Hhas Hne Hin) as Hday.
  rewrite Hsplit, (final_cells_last before after last Hlast Hafter) in Hday.
  simpl in Hday. now rewrite Hempty in Hday.
Qed.

End NoSchedule.

(** ** Inputs on which [optimize] raises *)

Lemma setup_loop_duplicate (self : ScheduleOptimizer) (cs : list Course) :
  domain self <> [] ->
  forall p, NoDup (map fst (_variables p)) ->
  ~ NoDup (map fst (_variables p) ++ map id cs) ->
  setup_loop self cs p = Raise ValueError.
Proof.
  intros Hd. induction cs as [|c cs IH]; intros p Hp Hdup.
  - exfalso. apply Hdup. simpl. now rewrite app_nil_r.
  - cbn [setup_loop]. unfold addVariable.
    destruct (Str.mem (id c) (map fst (_variables p))) eqn:E; [reflexivity|].
    destruct (domain self) as [|x d] eqn:Ed; [congruence|].
    cbn [bind]. apply mem_false in E. apply IH; cbn [_variables].
    + rewrite map_app. simpl.
      apply Permutation_NoDup with (l := id c :: map fst (_variables p)).
      * apply Permutation_cons_append.
      * now constructor.
    + rewrite map_app, <- app_assoc. exact Hdup.
Qed.

Lemma init_domain (fs : filesystem) (file : string)
  (optimizer : ScheduleOptimizer) :
  __init__ fs file = Return optimizer -> domain optimizer = full_domain.
Proof.
  unfold __init__. destruct (_load_data fs file); [|discriminate].
  now intros [= <-].
Qed.

Lemma run_duplicate (solver : Solver) (fs : filesystem) (file : string)
  (data : list Course) :
  read fs file = Some data ->
  ~ NoDup (map id (kept data)) ->
  run solver fs file = Raise ValueError.
Proof.
  intros Hread Hdup. unfold run, __init__, _load_data. rewrite Hread.
  fold (kept data). cbn [bind]. unfold optimize, setup_variables.
  cbn [problem courses].
  match goal with |- context [setup_loop ?s _ _] => set (self := s) end.
  rewrite (setup_loop_duplicate self (kept data) full_domain_not_empty
             Problem_new); [reflexivity | constructor | exact Hdup].
Qed.

(** X7. Two kept courses with the same id make [optimize] raise a
    ValueError: the second [addVariable] refuses the variable. *)
Theorem duplicate_ids_raise (solver : Solver) (fs : filesystem)
  (file : string) (data : list Course) :
  read fs file = Some data ->
  ~ NoDup (map id (kept data)) ->
  run solver fs file = Raise ValueError.
Proof. exact (run_duplicate solver fs file data). Qed.

Lemma _parse_time_Raise (s : string) (e : exn) :
  _parse_time s = Raise e -> e = ValueError.
Proof.
  unfold _parse_time. destruct (Str.contains "-" s); [|discriminate].
  destruct (Str.split "-" s) as [|a [|b [|c l]]]; try congruence.
  destruct (strptime_IMp (am_pm a)); [|discriminate].
  destruct (strptime_IMp (am_pm b)); discriminate.
Qed.

Lemma duration_loop_Raise (course_id : string) (times : list string) :
  forall p e, duration_loop course_id times p = Raise e -> e = ValueError.
Proof.
  induction times as [|mt times IH]; intros p e; [discriminate|].
  cbn [duration_loop].
  destruct (negb (String.eqb mt "TBA")); [|apply IH].
  destruct (_parse_time mt) as [[[s|] [x|]]|e'] eqn:Hp; cbn [bind];
    try apply IH.
  - destruct (truthy (Some s) && truthy (Some x)); apply IH.
  - intros [= <-]. now apply _parse_time_Raise in Hp.
Qed.

Lemma duration_loop_hyphens (course_id mt : string) (times : list string) :
  In mt times -> (2 < length (Str.split "-" mt))%nat ->
  forall p, duration_loop course_id times p = Raise ValueError.
Proof.
  intros Hin Hlen.
  induction times as [|x times IH]; intros p; [contradiction|].
  assert (Hcases : x = mt \/ In mt times).
  { destruct Hin; [now left | now right]. }
  clear Hin. cbn [duration_loop].
  destruct (String.eqb_spec x "TBA") as [->|Hne]; cbn [negb].
  - destruct Hcases as [<- | Hin]; [simpl in Hlen; lia | now apply IH].
  - destruct (_parse_time x) as [[[s|] [e|]]|e'] eqn:Hp; cbn [bind].
    + destruct (truthy (Some s) && truthy (Some e));
        (destruct Hcases as [-> | Hin];
         [rewrite (_parse_time_raises mt Hlen) in Hp; discriminate
         | now apply IH]).
    + destruct Hcases as [-> | Hin];
        [rewrite (_parse_time_raises mt Hlen) in Hp; discriminate
        | now apply IH].
    + destruct Hcases as [-> | Hin];
        [rewrite (_parse_time_raises mt Hlen) in Hp; discriminate
        | now apply IH].
    + destruct Hcases as [-> | Hin];
        [rewrite (_parse_time_raises mt Hlen) in Hp; discriminate
        | now apply IH].
    + now rewrite (_parse_time_Raise _ _ Hp).
Qed.

Lemma duration_courses_hyphens (cs : list Course) (course : Course)
  (mt : string) :
  In course cs -> In mt (meeting_times course) ->
  (2 < length (Str.split "-" mt))%nat ->
  forall p, duration_courses cs p = Raise ValueError.
Proof.
  intros Hc Hmt Hlen. induction cs as [|c cs IH]; intros p; [contradiction|].
  cbn [duration_courses].
  destruct (duration_loop (id c) (meeting_times c) p) as [p1|e] eqn:E;
    cbn [bind].
  - destruct Hc as [-> | Hc]; [|now apply IH].
    now rewrite (duration_loop_hyphens (id course) mt _ Hmt Hlen p) in E.
  - now rewrite (duration_loop_Raise _ _ _ _ E).
Qed.

Lemma run_hyphens (solver : Solver) (fs : filesystem) (file : string)
  (data : list Course) (course : Course) (mt : string) :
  read fs file = Some data ->
  In course (kept data) ->
  In mt (meeting_times course) ->
  (2 < length (Str.split "-" mt))%nat ->
  run solver fs file = Raise ValueError.
Proof.
  intros Hread Hc Hmt Hlen.
  destruct (ListDec.NoDup_dec string_dec (map id (kept data))) as [Hnd | Hdup];
    [|now apply run_duplicate with (data := data)].
  unfold run, __init__, _load_data. rewrite Hread.
  fold (kept data). cbn [bind]. unfold optimize, setup_variables.
  cbn [problem courses].
  match goal with |- context [setup_loop ?s _ _] => set (self := s) end.
  destruct (setup_loop_total self (kept data) full_domain_not_empty Problem_new)
    as [p1 ->]; [exact Hnd|].
  cbn [bind]. unfold add_duration_constraints.
  set (self2 := add_time_constraints (with_problem self p1)).
  assert (Hcs2 : courses self2 = kept data) by reflexivity.
  rewrite Hcs2.
  now rewrite (duration_courses_hyphens (kept data) course mt Hc Hmt Hlen).
Qed.

(** X8. A meeting-time string with two hyphens or more, in any kept
    course, makes [optimize] raise a ValueError: the unpacking of line 35 is
    outside the [try], and nothing on the way up catches it. *)
Theorem two_hyphens_raise (solver : Solver) (fs : filesystem)
  (file : string) (data : list Course) (course : Course) (mt : string) :
  read fs file = Some data ->
  In course (kept data) ->
  In mt (meeting_times course) ->
  (2 < length (Str.split "-" mt))%nat ->
  run solver fs file = Raise ValueError.
Proof. exact (run_hyphens solver fs file data course mt). Qed.

Lemma setup_variables_Return (self self1 : ScheduleOptimizer) :
  setup_variables self = Return self1 ->
  courses self1 = courses self /\
  _variables (problem self1)
  = _variables (problem self)
      ++ map (fun c => (id c, domain self)) (courses self).
Proof.
  unfold setup_variables.
  destruct (setup_loop self (courses self) (problem self)) as [p1|] eqn:E;
    [|discriminate].
  cbn [bind]. intros [= <-]. split; [reflexivity|].
  now destruct (setup_loop_Return _ _ _ _ E).
Qed.

Lemma add_time_constraints_keeps (self : ScheduleOptimizer) :
  courses (add_time_constraints self) = courses self /\
  _variables (problem (add_time_constraints self)) = _variables (problem self).
Proof.
  split; [reflexivity|]. now destruct (add_time_constraints_adds self).
Qed.

Lemma add_duration_constraints_Return (self self3 : ScheduleOptimizer) :
  add_duration_constraints self = Return self3 ->
  courses self3 = courses self /\
  _variables (problem self3) = _variables (problem self).
Proof.
  unfold add_duration_constraints.
  destruct (duration_courses (courses self) (problem self)) as [p3|] eqn:E;
    [|discriminate].
  cbn [bind]. intros [= <-]. split; [reflexivity|].
  now destruct (duration_courses_adds _ _ _ E).
Qed.

Lemma add_day_constraints_keeps (self : ScheduleOptimizer) :
  courses (fst (add_day_constraints self)) = courses self /\
  _variables (problem (fst (add_day_constraints self)))
  = _variables (problem self).
Proof.
  unfold add_day_constraints. cbn [fst]. split; [reflexivity|].
  cbn [problem with_problem].
  now destruct (day_loop_spec (courses self)
                  (problem self, {| valid_days := [] |})) as [[Hv _] _].
Qed.

(** X9. An optimizer can be used once. After a call of [optimize] that
    returned, on an optimizer with a course, every further call raises a
    ValueError: [setup_variables] adds the same variables again. *)
Theorem optimize_once (solver : Solver) (self : ScheduleOptimizer)
  (r : option assignments) :
  optimize solver self = Return r ->
  courses self <> [] ->
  exists self',
    optimized self = Return self' /\
    forall solver', optimize solver' self' = Raise ValueError.
Proof.
  unfold optimize, optimized.
  destruct (setup_variables self) as [self1|] eqn:E1; [|discriminate].
  cbn [bind].
  destruct (add_duration_constraints (add_time_constraints self1))
    as [self3|] eqn:E3; [|discriminate].
  cbn [bind]. intros _ Hne. eexists. split; [reflexivity|].
  intros solver'.
  destruct (setup_variables_Return _ _ E1) as [Hc1 Hv1].
  destruct (add_time_constraints_keeps self1) as [Hc2 Hv2].
  destruct (add_duration_constraints_Return _ _ E3) as [Hc3 Hv3].
  destruct (add_day_constraints_keeps self3) as [Hc4 Hv4].
  set (self' := fst (add_day_constraints self3)) in *.
  assert (Hcs : courses self' = courses self) by congruence.
  assert (Hvs : _variables (problem self')
                = _variables (problem self)
                    ++ map (fun c => (id c, domain self)) (courses self))
    by congruence.
  unfold setup_variables. rewrite Hcs.
  destruct (courses self) as [|c cs] eqn:Ecs; [congruence|].
  cbn [setup_loop]. unfold addVariable.
  assert (Hmem : Str.mem (id c) (map fst (_variables (problem self'))) = true).
  { apply mem_In. rewrite Hvs, map_app. apply in_or_app. right. simpl.
    now left. }
  now rewrite Hmem.
Qed.

(** ** The handler of [/optimize] *)

Lemma format_schedule_Return (selected_courses : list Course)
  (a : assignments) :
  (forall c v, In (c, v) a ->
     exists course, In course selected_courses /\ id course = c) ->
  exists sched,
    format_schedule selected_courses a = Return sched /\
    Forall2 (formats selected_courses) sched a.
Proof.
  induction a as [|[c [day time]] a IH]; intros H.
  - exists []. split; [reflexivity | constructor].
  - cbn [format_schedule].
    destruct (H c (day, time) (or_introl eq_refl)) as [course [Hin Hid]].
    destruct (find (fun c0 => String.eqb (id c0) c) selected_courses)
      as [info|] eqn:Ef.
    + destruct IH as [sched [-> HF]]; [intros c' v' Hin'; apply (H c' v');
                                       now right|].
      cbn [bind]. eexists. split; [reflexivity|].
      constructor; [|assumption]. unfold formats. cbn.
      repeat split. exists info. now repeat split.
    + exfalso. apply (find_none _ _ Ef) in Hin.
      rewrite Hid, String.eqb_refl in Hin. discriminate.
Qed.

Lemma run_same_data (solver : Solver) (fs1 fs2 : filesystem)
  (file1 file2 : string) (data : list Course) :
  read fs1 file1 = Some data -> read fs2 file2 = Some data ->
  run solver fs1 file1 = run solver fs2 file2.
Proof.
  intros H1 H2. unfold run, __init__, _load_data. now rewrite H1, H2.
Qed.

(** X11. The handler writes the selected courses to
    "selected_courses.json" and leaves every other file as it was; and its
    reply does not depend on what the files held before, a file of that
    name from an earlier request included. *)
Theorem handler_files (solver : Solver) (all_courses : list Course)
  (fs : filesystem) (selected_course_ids : list string) :
  read (snd (optimize_schedule solver all_courses fs selected_course_ids))
    "selected_courses.json"
  = Some (filter (fun course => Str.mem (id course) selected_course_ids)
            all_courses) /\
  (forall name, name <> "selected_courses.json" ->
     read (snd (optimize_schedule solver all_courses fs selected_course_ids))
       name = read fs name) /\
  (forall fs',
     fst (optimize_schedule solver all_courses fs' selected_course_ids)
     = fst (optimize_schedule solver all_courses fs selected_course_ids)).
Proof.
  unfold optimize_schedule. cbn [fst snd]. split; [apply read_write|]. split.
  - intros name Hne. unfold write. cbn [read].
    destruct (String.eqb_spec name "selected_courses.json");
      [contradiction | reflexivity].
  - intros fs'.
    rewrite (run_same_data solver
               (write fs' "selected_courses.json"
                  (filter (fun course => Str.mem (id course) selected_course_ids)
                     all_courses))
               (write fs "selected_courses.json"
                  (filter (fun course => Str.mem (id course) selected_course_ids)
                     all_courses))
               "selected_courses.json" "selected_courses.json" _
               (read_write _ _ _) (read_write _ _ _)).
    reflexivity.
Qed.

Section Handler.

Variable solver : Solver.
Hypothesis solver_lawful : lawful solver.

(** X10. On a request that names a list of ids, the reply of the handler
    follows the run on the file it wrote. An error of the run leaves the
    handler as it is. [None] gives the reply that no valid schedule was
    found. An assignment is never empty and gives a schedule with one entry
    for each of its items, in its order, each with the item's day and slot
    and the department, code and title of the first selected course of that
    id: the [next] of app.py:35 finds a course for every item and never ends
    in StopIteration. *)
Theorem handler_reply (all_courses : list Course) (fs : filesystem)
  (selected_course_ids : list string) :
  let selected_courses :=
    filter (fun course => Str.mem (id course) selected_course_ids)
      all_courses in
  let solution :=
    run solver (write fs "selected_courses.json" selected_courses)
      "selected_courses.json" in
  let reply :=
    fst (optimize_schedule solver all_courses fs selected_course_ids) in
  (forall e, solution = Raise e -> reply = Raise e) /\
  (solution = Return None ->
   reply = Return (NoSchedule
                     "No valid schedule found with the selected courses.")) /\
  (forall a, solution = Return (Some a) ->
     a <> [] /\
     exists sched,
       reply = Return (Success sched) /\
       Forall2 (formats selected_courses) sched a).
Proof.
  intros selected_courses solution reply.
  unfold reply, solution, optimize_schedule.
  fold selected_courses. cbn [fst].
  set (fs' := write fs "selected_courses.json" selected_courses).
  split; [|split].
  - intros e ->. reflexivity.
  - intros ->. reflexivity.
  - intros a Hrun. rewrite Hrun. cbn [bind].
    pose proof (run_feasible solver solver_lawful fs' _ selected_courses a
                  (read_write _ _ _) Hrun) as Hf.
    assert (Hne : a <> []).
    { intros ->.
      assert (Hk : kept selected_courses = []).
      { destruct (kept selected_courses) as [|c cs] eqn:Ek; [reflexivity|].
        exfalso. apply (proj2 (feas_keys _ _ Hf (id c))). now left. }
      rewrite (run_nothing_kept solver fs' _ selected_courses
                 (read_write _ _ _) Hk) in Hrun. discriminate. }
    split; [exact Hne|].
    destruct (format_schedule_Return selected_courses a) as [sched [Hfmt HF]].
    { intros c v Hin.
      assert (Hc : In c (map id (kept selected_courses))).
      { apply (feas_keys _ _ Hf). change c with (fst (c, v)).
        now apply in_map. }
      apply in_map_iff in Hc. destruct Hc as [course [Hid Hk]].
      exists course. split; [|assumption]. now apply kept_In in Hk. }
    exists sched. split; [|assumption].
    assert (Ht : solution_truthy (Some a) = true)
      by (destruct a; [now destruct Hne | reflexivity]).
    rewrite Ht. cbn [items]. now rewrite Hfmt.
Qed.

End Handler.

(** ** The constraints of [add_time_constraints] *)




(** ** Tuesday and Thursday *)

Lemma contains_tail (a : ascii) (b s : string) :
  Str.contains (String a b) s = true -> Str.contains b s = true.
Proof.
  induction s as [|c s IH]; cbn [Str.contains].
  - simpl. discriminate.
  - intros H. apply orb_true_iff in H. apply orb_true_iff. right.
    destruct H as [H | H].
    + cbn [prefix] in H. destruct (ascii_dec a c); [|discriminate].
      destruct s as [|c' s'].
      * destruct b; [reflexivity | discriminate].
      * cbn [Str.contains]. now rewrite H.
    + pose proof (IH H) as H'. destruct s; [|exact H'].
      cbn [Str.contains] in H. simpl in H. exact H'.
Qed.

(** X13. One token never stands for both Tuesday and Thursday: a token with
    "TH" has an "H", and the test of line 99 then drops Tuesday. A course
    gets both days only from two tokens, one with "T" and no "H", another
    with "TH". *)
Theorem tuesday_and_thursday (tokens : list string) :
  In "Tuesday" (derived_days tokens) ->
  In "Thursday" (derived_days tokens) ->
  exists t1 t2,
    In t1 tokens /\ In t2 tokens /\ t1 <> t2 /\
    Str.contains "T" t1 = true /\ Str.contains "H" t1 = false /\
    Str.contains "TH" t2 = true.
Proof.
  intros Htue Hthu.
  apply derived_days_In in Htue, Hthu.
  destruct Htue as [t1 [H1 C1]], Hthu as [t2 [H2 C2]].
  unfold contributes in C1, C2.
  assert (Ht1 : Str.contains "T" t1 = true /\ Str.contains "H" t1 = false).
  { destruct C1 as [[E _] | [[_ H] | [[E _] | [[E _] | [E _]]]]];
      try discriminate; assumption. }
  assert (Ht2 : Str.contains "TH" t2 = true).
  { destruct C2 as [[E _] | [[E _] | [[E _] | [[_ H] | [E _]]]]];
      try discriminate; assumption. }
  exists t1, t2. destruct Ht1 as [HT HH]. repeat split; try assumption.
  intros ->. apply contains_tail in Ht2. congruence.
Qed.

(** ** The lambda of the duration constraints *)

(** X14. The lambda of lines 78-83 never raises and is the window test:
    on every slot of the domain and every window [_parse_time] returns, the
    three strings are read as "%H:%M", the bounds as minutes of one day, and
    the lambda answers whether the slot is between them, bounds included. *)
Theorem duration_lambda_window (mt s e time : string) :
  _parse_time mt = Return (Some s, Some e) ->
  In time _generate_time_slots ->
  exists t lo hi,
    strptime_HM time = Some t /\ strptime_HM s = Some lo /\
    strptime_HM e = Some hi /\
    (0 <= lo < 1440)%Z /\ (0 <= hi < 1440)%Z /\ (480 <= t <= 1260)%Z /\
    forall h day,
      duration_lambda s e h [(day, time)] = ((lo <=? t)%Z && (t <=? hi)%Z).
Proof.
  intros Hp Hin.
  destruct (time_slots_readable time Hin) as [t Ht].
  destruct (time_slots_minutes time t Hin Ht) as [k [Hk Hkt]].
  revert Hp. unfold _parse_time.
  destruct (Str.contains "-" mt); [|discriminate].
  destruct (Str.split "-" mt) as [|a [|b [|c l]]]; try discriminate.
  destruct (strptime_IMp (am_pm a)) as [t1|]; [|discriminate].
  destruct (strptime_IMp (am_pm b)) as [t2|]; [|discriminate].
  intros [= <- <-].
  assert (Hr : forall x, (0 <= 60 * hour x + minute x < 1440)%Z).
  { intros x. assert (0 <= hour x < 24)%Z by (apply Z.mod_pos_bound; lia).
    assert (0 <= minute x < 60)%Z by (apply Z.mod_pos_bound; lia). lia. }
  exists t, (60 * hour t1 + minute t1)%Z, (60 * hour t2 + minute t2)%Z.
  repeat split; try apply strptime_strftime_HM; try apply Hr;
    try assumption; try lia.
  intros h day. unfold duration_lambda. cbn [snd].
  now rewrite Ht, !strptime_strftime_HM.
Qed.

(** ** Well-formed time ranges *)

Lemma contains_char_cons (x c : ascii) (s : string) :
  Str.contains (String x EmptyString) (String c s)
  = Ascii.eqb c x || Str.contains (String x EmptyString) s.
Proof. cbn [Str.contains]. now rewrite prefix_char. Qed.

Lemma split_without (sep : ascii) (x : string) :
  Str.contains (String sep EmptyString) x = false -> Str.split sep x = [x].
Proof.
  induction x as [|c x IH]; [reflexivity|].
  rewrite contains_char_cons. intros H. apply orb_false_iff in H.
  destruct H as [Hc Hx]. cbn [Str.split]. rewrite Hc, (IH Hx). reflexivity.
Qed.

Lemma split_app (sep : ascii) (x y : string) :
  Str.contains (String sep EmptyString) x = false ->
  Str.split sep (x ++ String sep y)%string = x :: Str.split sep y.
Proof.
  induction x as [|c x IH].
  - intros _. cbn [append Str.split]. now rewrite Ascii.eqb_refl.
  - rewrite contains_char_cons. intros H. apply orb_false_iff in H.
    destruct H as [Hc Hx]. cbn [append Str.split]. now rewrite Hc, (IH Hx).
Qed.

Lemma contains_app (sep : ascii) (x y : string) :
  Str.contains (String sep EmptyString) (x ++ String sep y)%string = true.
Proof.
  induction x as [|c x IH]; cbn [append]; rewrite contains_char_cons.
  - now rewrite Ascii.eqb_refl.
  - rewrite IH. apply orb_true_r.
Qed.

Lemma clock12_table :
  forallb (fun h =>
    forallb (fun m =>
      forallb (fun pm =>
        let x := clock12 (Z.of_nat h) (Z.of_nat m) pm in
        negb (Str.contains "-" x) &&
        match strptime_IMp (am_pm x) with
        | Some t => (t =? 60 * hour24 (Z.of_nat h) pm + Z.of_nat m)%Z
        | None => false
        end) [false; true]) (seq 0 60)) (seq 1 12) = true.
Proof. vm_compute. reflexivity. Qed.

Lemma clock12_parse (h m : Z) (pm : bool) :
  (1 <= h <= 12)%Z -> (0 <= m < 60)%Z ->
  Str.contains "-" (clock12 h m pm) = false /\
  strptime_IMp (am_pm (clock12 h m pm)) = Some (60 * hour24 h pm + m)%Z.
Proof.
  intros Hh Hm. pose proof clock12_table as T.
  rewrite forallb_forall in T.
  specialize (T (Z.to_nat h) ltac:(apply in_seq; lia)).
  rewrite forallb_forall in T.
  specialize (T (Z.to_nat m) ltac:(apply in_seq; lia)).
  rewrite forallb_forall in T.
  specialize (T pm ltac:(destruct pm; simpl; auto)).
  cbv zeta in T. rewrite !Z2Nat.id in T by lia.
  apply andb_true_iff in T. destruct T as [T1 T2].
  apply negb_true_iff in T1. split; [assumption|].
  destruct (strptime_IMp _) as [t|]; [|discriminate].
  apply Z.eqb_eq in T2. now subst.
Qed.

Lemma strftime_HM_of (H m : Z) :
  (0 <= H < 24)%Z -> (0 <= m < 60)%Z ->
  strftime_HM (60 * H + m)%Z = (two_digits H ++ ":" ++ two_digits m)%string.
Proof.
  intros HH Hm. unfold strftime_HM, hour, minute.
  replace ((60 * H + m) / 60)%Z with H
    by (apply Z.div_unique with (r := m); lia).
  replace ((60 * H + m) mod 60)%Z with m
    by (apply Z.mod_unique with (q := H); lia).
  now rewrite Z.mod_small by lia.
Qed.

(** X15. A range of two 12-hour readings in the short form, "8:00a-12:30p",
    parses to the two 24-hour times on two digits each: 12 a.m. is hour 00,
    12 p.m. is hour 12, the other p.m. hours get 12 added, the minutes
    stay. *)
Theorem parse_time_range (h1 m1 h2 m2 : Z) (pm1 pm2 : bool) :
  (1 <= h1 <= 12)%Z -> (0 <= m1 < 60)%Z ->
  (1 <= h2 <= 12)%Z -> (0 <= m2 < 60)%Z ->
  _parse_time (clock12 h1 m1 pm1 ++ "-" ++ clock12 h2 m2 pm2)%string
  = Return (Some (two_digits (hour24 h1 pm1) ++ ":" ++ two_digits m1)%string,
            Some (two_digits (hour24 h2 pm2) ++ ":" ++ two_digits m2)%string).
Proof.
  intros Hh1 Hm1 Hh2 Hm2.
  destruct (clock12_parse h1 m1 pm1 Hh1 Hm1) as [Hc1 Hp1].
  destruct (clock12_parse h2 m2 pm2 Hh2 Hm2) as [Hc2 Hp2].
  unfold _parse_time.
  change (clock12 h1 m1 pm1 ++ "-" ++ clock12 h2 m2 pm2)%string
    with (clock12 h1 m1 pm1 ++ String "-" (clock12 h2 m2 pm2))%string.
  rewrite contains_app, (split_app "-" _ _ Hc1), (split_without "-" _ Hc2).
  rewrite Hp1, Hp2.
  assert (Hr : forall h pm, (1 <= h <= 12)%Z -> (0 <= hour24 h pm < 24)%Z).
  { intros h pm Hh. unfold hour24.
    destruct pm; destruct (Z.eqb_spec h 12); lia. }
  now rewrite !strftime_HM_of by auto.
Qed.

(** ** The further properties at concrete inputs *)

Lemma run_answer_exact_witness :
  feasible (kept [course_A; course_B]) two_courses_schedule /\
  forall a, ~ feasible (kept [course_R]) a.
Proof.
  split.
  - apply (proj1 (run_answer_exact BacktrackingSolver BacktrackingSolver_lawful
                    two_courses "data.json" [course_A; course_B] eq_refl)).
    exact run_two_courses.
  - apply (proj2 (run_answer_exact BacktrackingSolver BacktrackingSolver_lawful
                    [("data.json", [course_R])] "data.json" [course_R]
                    eq_refl)).
    + vm_compute. reflexivity.
    + discriminate.
Defined.

Lemma window_without_slot_witness :
  exists r,
    run BacktrackingSolver [("data.json", [course_A; course_R])] "data.json"
    = Return r /\ r = None.
Proof.
  eexists. split; [vm_compute; reflexivity|].
  apply (window_without_slot BacktrackingSolver BacktrackingSolver_lawful
           [("data.json", [course_A; course_R])] "data.json"
           [course_A; course_R] course_R "9:00a-8:00a" "09:00" "08:00"
           540%Z 480%Z None).
  - reflexivity.
  - simpl. auto.
  - simpl. auto.
  - vm_compute. reflexivity.
  - vm_compute. reflexivity.
  - vm_compute. reflexivity.
  - intros k _. lia.
  - vm_compute. reflexivity.
Defined.

Lemma disjoint_windows_witness :
  exists r,
    run BacktrackingSolver [("data.json", [course_D; course_A])] "data.json"
    = Return r /\ r = None.
Proof.
  eexists. split; [vm_compute; reflexivity|].
  apply (disjoint_windows BacktrackingSolver BacktrackingSolver_lawful
           [("data.json", [course_D; course_A])] "data.json"
           [course_D; course_A] course_D "8:00a-9:00a" "10:00a-11:00a"
           "08:00" "09:00" "10:00" "11:00" 540%Z 600%Z None).
  - reflexivity.
  - simpl. auto.
  - simpl. auto.
  - simpl. auto.
  - vm_compute. reflexivity.
  - vm_compute. reflexivity.
  - vm_compute. reflexivity.
  - vm_compute. reflexivity.
  - lia.
  - vm_compute. reflexivity.
Defined.

Lemma capacity_witness :
  (length (kept [course_A; course_T; course_B]) <= 135)%nat /\
  length two_courses_schedule = length (kept [course_A; course_T; course_B]).
Proof.
  apply (capacity BacktrackingSolver BacktrackingSolver_lawful
           three_courses "data.json" [course_A; course_T; course_B]
           two_courses_schedule).
  - reflexivity.
  - exact run_three_courses.
Defined.

Lemma day_of_last_course_witness :
  run BacktrackingSolver two_courses "data.json"
  = Return (Some two_courses_schedule) /\
  In (id course_A, ("Tuesday", "08:00")) two_courses_schedule /\
  In "Tuesday" (derived_days (meeting_days course_B)).
Proof.
  split; [exact run_two_courses|]. split; [simpl; auto|].
  apply (day_of_last_course BacktrackingSolver BacktrackingSolver_lawful
           two_courses "data.json" [course_A; course_B] [course_A] []
           course_B course_A two_courses_schedule "Tuesday" "08:00").
  - reflexivity.
  - reflexivity.
  - reflexivity.
  - intros c [].
  - exact run_two_courses.
  - simpl. auto.
  - reflexivity.
  - vm_compute. discriminate.
  - simpl. auto.
Defined.

Lemma empty_last_day_set_witness :
  exists r,
    run BacktrackingSolver [("data.json", [course_A; course_S])] "data.json"
    = Return r /\ r = None.
Proof.
  eexists. split; [vm_compute; reflexivity|].
  apply (empty_last_day_set BacktrackingSolver BacktrackingSolver_lawful
           [("data.json", [course_A; course_S])] "data.json"
           [course_A; course_S] [course_A] [] course_S course_A None).
  - reflexivity.
  - reflexivity.
  - reflexivity.
  - intros c [].
  - vm_compute. reflexivity.
  - simpl. auto.
  - reflexivity.
  - vm_compute. discriminate.
  - vm_compute. reflexivity.
Defined.

Lemma duplicate_ids_raise_witness :
  run BacktrackingSolver [("data.json", [course_A; course_B; course_A])]
    "data.json"
  = Raise ValueError.
Proof.
  apply (duplicate_ids_raise BacktrackingSolver
           [("data.json", [course_A; course_B; course_A])] "data.json"
           [course_A; course_B; course_A]).
  - reflexivity.
  - intros H. vm_compute in H. inversion H as [|x l Hn _].
    apply Hn. right. left. reflexivity.
Defined.

Lemma two_hyphens_raise_witness :
  run BacktrackingSolver [("data.json", [course_A; course_H])] "data.json"
  = Raise ValueError.
Proof.
  apply (two_hyphens_raise BacktrackingSolver
           [("data.json", [course_A; course_H])] "data.json"
           [course_A; course_H] course_H "8:00a-9:00a-10:00a").
  - reflexivity.
  - simpl. auto.
  - simpl. auto.
  - vm_compute. lia.
Defined.

Lemma optimize_once_witness :
  __init__ two_courses "data.json" = Return two_courses_optimizer /\
  optimize BacktrackingSolver two_courses_optimizer
  = Return (Some two_courses_schedule) /\
  exists self',
    optimized two_courses_optimizer = Return self' /\
    forall solver', optimize solver' self' = Raise ValueError.
Proof.
  split; [reflexivity|]. split; [vm_compute; reflexivity|].
  apply (optimize_once BacktrackingSolver two_courses_optimizer
           (Some two_courses_schedule)).
  - vm_compute. reflexivity.
  - discriminate.
Defined.

Lemma handler_reply_witness :
  let selected_courses :=
    filter (fun course => Str.mem (id course) ["A"; "B"])
      [course_A; course_T; course_B] in
  let solution :=
    run BacktrackingSolver (write [] "selected_courses.json" selected_courses)
      "selected_courses.json" in
  let reply :=
    fst (optimize_schedule BacktrackingSolver [course_A; course_T; course_B]
           [] ["A"; "B"]) in
  (forall e, solution = Raise e -> reply = Raise e) /\
  (solution = Return None ->
   reply = Return (NoSchedule
                     "No valid schedule found with the selected courses.")) /\
  (forall a, solution = Return (Some a) ->
     a <> [] /\
     exists sched,
       reply = Return (Success sched) /\
       Forall2 (formats selected_courses) sched a).
Proof.
  exact (handler_reply BacktrackingSolver BacktrackingSolver_lawful
           [course_A; course_T; course_B] [] ["A"; "B"]).
Defined.

Lemma tuesday_and_thursday_witness :
  exists t1 t2,
    In t1 (meeting_days course_B) /\ In t2 (meeting_days course_B) /\
    t1 <> t2 /\
    Str.contains "T" t1 = true /\ Str.contains "H" t1 = false /\
    Str.contains "TH" t2 = true.
Proof.
  apply (tuesday_and_thursday (meeting_days course_B)).
  - vm_compute. auto.
  - vm_compute. auto.
Defined.

Lemma duration_lambda_window_witness :
  exists t lo hi,
    strptime_HM "08:30" = Some t /\ strptime_HM "08:00" = Some lo /\
    strptime_HM "09:15" = Some hi /\
    (0 <= lo < 1440)%Z /\ (0 <= hi < 1440)%Z /\ (480 <= t <= 1260)%Z /\
    forall h day,
      duration_lambda "08:00" "09:15" h [(day, "08:30")]
      = ((lo <=? t)%Z && (t <=? hi)%Z).
Proof.
  apply (duration_lambda_window "8:00a-9:15a" "08:00" "09:15" "08:30").
  - vm_compute. reflexivity.
  - vm_compute. auto.
Defined.

Lemma parse_time_range_witness :
  _parse_time "8:00a-12:30p" = Return (Some "08:00", Some "12:30").
Proof.
  apply (parse_time_range 8 0 12 30 false true); lia.
Defined.

(** * Inputs on which [optimize] returns nothing *)

(** ** Strings with two hyphens or more *)

Lemma contains_char_app (sep : ascii) (x y : string) :
  Str.contains (String sep EmptyString) (x ++ y)%string
  = Str.contains (String sep EmptyString) x
    || Str.contains (String sep EmptyString) y.
Proof.
  induction x as [|c x IH]; [reflexivity|]. cbn [append].
  now rewrite !contains_char_cons, IH, orb_assoc.
Qed.

Lemma length_split_cons (sep c : ascii) (s : string) :
  length (Str.split sep (String c s))
  = if Ascii.eqb c sep then S (length (Str.split sep s))
    else length (Str.split sep s).
Proof.
  cbn [Str.split]. destruct (Ascii.eqb c sep); [reflexivity|].
  destruct (Str.split sep s) eqn:E; [|reflexivity].
  now destruct (split_not_nil sep s).
Qed.

Lemma length_split_app (sep : ascii) (x y : string) :
  length (Str.split sep (x ++ String sep y)%string)
  = (length (Str.split sep x) + length (Str.split sep y))%nat.
Proof.
  induction x as [|c x IH]; cbn [append].
  - now rewrite length_split_cons, Ascii.eqb_refl.
  - rewrite !length_split_cons, IH. now destruct (Ascii.eqb c sep).
Qed.

(** Cut at one of its hyphens, a string with two or more leaves a hyphen in
    one of the halves. *)
Lemma hyphen_in_a_half (s a b : string) :
  (2 < length (Str.split "-" s))%nat ->
  s = (a ++ "-" ++ b)%string ->
  Str.contains "-" a = true \/ Str.contains "-" b = true.
Proof.
  intros Hlen ->.
  change (a ++ "-" ++ b)%string with (a ++ String "-" b)%string in Hlen.
  rewrite length_split_app in Hlen.
  destruct (Str.contains "-" a) eqn:Ea; [now left|].
  destruct (Str.contains "-" b) eqn:Eb; [now right|].
  rewrite (split_without "-" a Ea), (split_without "-" b Eb) in Hlen.
  simpl in Hlen. lia.
Qed.

(** ** A 12-hour clock time has no hyphen *)

Lemma first_match_Some {A B : Type} (k : A -> option B) (alts : list A)
  (b : B) :
  first_match k alts = Some b -> exists a, In a alts /\ k a = Some b.
Proof.
  induction alts as [|a alts IH]; [discriminate|]. cbn [first_match].
  destruct (k a) as [b'|] eqn:E.
  - intros [= <-]. exists a. split; [now left | assumption].
  - intros H. destruct (IH H) as [a' [Hin Hk]]. exists a'. split;
      [now right | assumption].
Qed.

Lemma in_range_not_hyphen (lo hi : nat) (c : ascii) :
  (45 < lo)%nat -> in_range lo hi c = true -> Ascii.eqb c "-" = false.
Proof.
  intros Hlo H. destruct (Ascii.eqb_spec c "-"%char) as [-> | Hne];
    [|reflexivity].
  unfold in_range in H. change (nat_of_ascii "-") with 45%nat in H.
  apply andb_true_iff in H. destruct H as [H _]. apply Nat.leb_le in H. lia.
Qed.

Lemma lower_not_hyphen (c x : ascii) :
  Ascii.eqb (lower c) x = true -> Ascii.eqb x "-" = false ->
  Ascii.eqb c "-" = false.
Proof.
  intros H Hx. destruct (Ascii.eqb_spec c "-"%char) as [-> | Hne];
    [|reflexivity].
  change (lower "-") with "-"%char in H. apply Ascii.eqb_eq in H. subst x.
  discriminate.
Qed.

Lemma two_chars_In (lo1 hi1 lo2 hi2 : nat) (s r : string) (v : Z) :
  (45 < lo1)%nat -> (45 < lo2)%nat ->
  In (v, r) (two_chars lo1 hi1 lo2 hi2 s) ->
  exists pre, s = (pre ++ r)%string /\ Str.contains "-" pre = false.
Proof.
  intros H1 H2. unfold two_chars.
  destruct s as [|a [|b r']]; try contradiction.
  destruct (in_range lo1 hi1 a) eqn:Ea; [|contradiction].
  destruct (in_range lo2 hi2 b) eqn:Eb; [|contradiction].
  cbn [andb]. intros [[= _ <-] | []].
  exists (String a (String b EmptyString)). split; [reflexivity|].
  rewrite !contains_char_cons.
  now rewrite (in_range_not_hyphen _ _ _ H1 Ea),
    (in_range_not_hyphen _ _ _ H2 Eb).
Qed.

Lemma one_char_In (lo hi : nat) (s r : string) (v : Z) :
  (45 < lo)%nat ->
  In (v, r) (one_char lo hi s) ->
  exists pre, s = (pre ++ r)%string /\ Str.contains "-" pre = false.
Proof.
  intros H1. unfold one_char. destruct s as [|a r']; try contradiction.
  destruct (in_range lo hi a) eqn:Ea; [|contradiction].
  intros [[= _ <-] | []].
  exists (String a EmptyString). split; [reflexivity|].
  rewrite contains_char_cons.
  now rewrite (in_range_not_hyphen _ _ _ H1 Ea).
Qed.

Lemma directive_I_In (s r : string) (v : Z) :
  In (v, r) (directive_I s) ->
  exists pre, s = (pre ++ r)%string /\ Str.contains "-" pre = false.
Proof.
  unfold directive_I. intros H.
  apply in_app_or in H. destruct H as [H | H];
    [apply two_chars_In in H; [assumption | lia | lia]|].
  apply in_app_or in H. destruct H as [H | H];
    [apply two_chars_In in H; [assumption | lia | lia]|].
  apply one_char_In in H; [assumption | lia].
Qed.

Lemma directive_M_In (s r : string) (v : Z) :
  In (v, r) (directive_M s) ->
  exists pre, s = (pre ++ r)%string /\ Str.contains "-" pre = false.
Proof.
  unfold directive_M. intros H.
  apply in_app_or in H. destruct H as [H | H];
    [apply two_chars_In in H; [assumption | lia | lia]|].
  apply one_char_In in H; [assumption | lia].
Qed.

Lemma directive_p_In (s r : string) (pm : bool) :
  In (pm, r) (directive_p s) ->
  exists pre, s = (pre ++ r)%string /\ Str.contains "-" pre = false.
Proof.
  unfold directive_p. destruct s as [|a [|b r']]; try contradiction.
  destruct (Ascii.eqb (lower b) "m") eqn:Eb; [|contradiction].
  assert (Hb : Ascii.eqb b "-" = false)
    by now apply (lower_not_hyphen b "m").
  assert (Hpre : forall x, Ascii.eqb (lower a) x = true ->
            Ascii.eqb x "-" = false ->
            exists pre, String a (String b r') = (pre ++ r')%string /\
                        Str.contains "-" pre = false).
  { intros x Hx Hx'. exists (String a (String b EmptyString)).
    split; [reflexivity|]. rewrite !contains_char_cons.
    now rewrite (lower_not_hyphen a x Hx Hx'), Hb. }
  destruct (Ascii.eqb (lower a) "a") eqn:Ea.
  - intros [[= _ <-] | []]. now apply (Hpre "a"%char).
  - destruct (Ascii.eqb (lower a) "p") eqn:Ep; [|contradiction].
    intros [[= _ <-] | []]. now apply (Hpre "p"%char).
Qed.

Lemma strptime_IMp_no_hyphen (s : string) (t : datetime) :
  strptime_IMp s = Some t -> Str.contains "-" s = false.
Proof.
  unfold strptime_IMp. intros H.
  apply first_match_Some in H. destruct H as [[h r1] [Hh H]].
  destruct r1 as [|c r2]; [discriminate|]. cbn [literal] in H.
  destruct (Ascii.eqb_spec c ":"%char) as [-> | Hne]; [|discriminate].
  apply first_match_Some in H. destruct H as [[m r3] [Hm H]].
  apply first_match_Some in H. destruct H as [[pm r4] [Hp H]].
  destruct r4; [|discriminate].
  apply directive_I_In in Hh. destruct Hh as [p1 [-> H1]].
  apply directive_M_In in Hm. destruct Hm as [p2 [-> H2]].
  apply directive_p_In in Hp. destruct Hp as [p3 [-> H3]].
  rewrite contains_char_app, contains_char_cons, !contains_char_app.
  now rewrite H1, H2, H3.
Qed.

(** ** [strip] and [replace] keep a hyphen *)

Lemma contains_lstrip (s : string) :
  Str.contains "-" s = true -> Str.contains "-" (Str.lstrip s) = true.
Proof.
  induction s as [|c s IH]; [discriminate|]. cbn [Str.lstrip].
  destruct (Str.isspace c) eqn:Es; [|trivial].
  rewrite contains_char_cons.
  destruct (Ascii.eqb_spec c "-"%char) as [-> | Hne]; [discriminate|].
  exact IH.
Qed.

Lemma contains_rstrip (s : string) :
  Str.contains "-" s = true -> Str.contains "-" (Str.rstrip s) = true.
Proof.
  induction s as [|c s IH]; [discriminate|].
  rewrite contains_char_cons. intros H. cbn [Str.rstrip].
  destruct (Str.rstrip s) as [|d r] eqn:Er.
  - destruct (Ascii.eqb_spec c "-"%char) as [-> | Hne]; [reflexivity|].
    cbn [orb] in H. apply IH in H. discriminate.
  - rewrite contains_char_cons.
    destruct (Ascii.eqb c "-"); [reflexivity|]. now apply IH.
Qed.

Lemma contains_replace (c : ascii) (new s : string) :
  Ascii.eqb c "-" = false ->
  Str.contains "-" s = true ->
  Str.contains "-" (Str.replace c new s) = true.
Proof.
  intros Hc. induction s as [|x s IH]; [discriminate|].
  rewrite contains_char_cons. intros H. cbn [Str.replace].
  destruct (Ascii.eqb_spec x c) as [-> | Hne].
  - rewrite Hc in H. rewrite contains_char_app, (IH H). apply orb_true_r.
  - rewrite contains_char_cons.
    destruct (Ascii.eqb x "-"); [reflexivity|]. now apply IH.
Qed.

Lemma am_pm_hyphen (s : string) :
  Str.contains "-" s = true -> Str.contains "-" (am_pm s) = true.
Proof.
  intros H. unfold am_pm, Str.strip.
  apply contains_replace; [reflexivity|].
  apply contains_replace; [reflexivity|].
  now apply contains_rstrip, contains_lstrip.
Qed.

Lemma hyphen_no_clock_time (s : string) :
  Str.contains "-" s = true -> strptime_IMp (am_pm s) = None.
Proof.
  intros H. destruct (strptime_IMp (am_pm s)) as [t|] eqn:E; [|reflexivity].
  apply strptime_IMp_no_hyphen in E. rewrite (am_pm_hyphen s H) in E.
  discriminate.
Qed.

(** ** The two claims on them *)

(** C7. The claim fails on the strings with two hyphens or more. Such a
    string is malformed as the claim has it: cut at any of its hyphens, one
    of the two halves is no 12-hour clock time. [_parse_time] does not report
    (None, None) for it: the unpacking of line 35 raises a ValueError, one
    line before the [try] that catches the ValueError of [strptime]; and the
    error ends the run, for all the courses of the selection. *)
Theorem malformed_time_raises (s : string) :
  (2 < length (Str.split "-" s))%nat ->
  (forall a b, s = (a ++ "-" ++ b)%string ->
     strptime_IMp (am_pm a) = None \/ strptime_IMp (am_pm b) = None) /\
  _parse_time s = Raise ValueError /\
  (forall solver fs file data course,
     read fs file = Some data ->
     In course (kept data) ->
     In s (meeting_times course) ->
     run solver fs file = Raise ValueError).
Proof.
  intros Hlen. split; [|split].
  - intros a b Hs.
    destruct (hyphen_in_a_half s a b Hlen Hs) as [H | H];
      [left | right]; now apply hyphen_no_clock_time.
  - now apply _parse_time_raises.
  - intros solver fs file data course Hread Hc Hmt.
    now apply (run_hyphens solver fs file data course s).
Qed.

Lemma malformed_time_raises_witness :
  (strptime_IMp (am_pm "8:00a") = None \/
   strptime_IMp (am_pm "9:00a-10:00a") = None) /\
  (strptime_IMp (am_pm "8:00a-9:00a") = None \/
   strptime_IMp (am_pm "10:00a") = None) /\
  _parse_time "8:00a-9:00a-10:00a" = Raise ValueError /\
  run BacktrackingSolver [("data.json", [course_A; course_H])] "data.json"
  = Raise ValueError.
Proof.
  destruct (malformed_time_raises "8:00a-9:00a-10:00a")
    as [Hhalf [Hparse Hrun]]; [vm_compute; lia|].
  split; [apply Hhalf; reflexivity|].
  split; [apply Hhalf; reflexivity|].
  split; [exact Hparse|].
  apply (Hrun BacktrackingSolver _ _ [course_A; course_H] course_H).
  - reflexivity.
  - simpl. auto.
  - simpl. auto.
Defined.

(** C6 as stated fails: there are inputs on which [optimize] returns neither
    a mapping nor the no-solution signal, whatever the solver. Two kept
    courses with one id: the second [addVariable] raises. A meeting time with
    two hyphens: the unpacking of line 35 raises. *)
Lemma optimize_returns_nothing :
  (forall solver,
     run solver [("data.json", [course_A; course_B; course_A])] "data.json"
     = Raise ValueError) /\
  (forall solver,
     run solver [("data.json", [course_A; course_H])] "data.json"
     = Raise ValueError) /\
  ~ (forall solver fs file data,
       read fs file = Some data -> exists r, run solver fs file = Return r).
Proof.
  assert (Hdup : forall solver,
            run solver [("data.json", [course_A; course_B; course_A])]
              "data.json" = Raise ValueError).
  { intros solver.
    apply (run_duplicate solver _ _ [course_A; course_B; course_A]);
      [reflexivity|].
    intros H. vm_compute in H. inversion H as [|x l Hn _].
    apply Hn. right. left. reflexivity. }
  split; [exact Hdup|]. split.
  - intros solver.
    apply (run_hyphens solver _ _ [course_A; course_H] course_H
             "8:00a-9:00a-10:00a").
    + reflexivity.
    + simpl. auto.
    + simpl. auto.
    + vm_compute. lia.
  - intros H.
    destruct (H BacktrackingSolver
                [("data.json", [course_A; course_B; course_A])] "data.json"
                _ eq_refl) as [r Hr].
    rewrite Hdup in Hr. discriminate.
Qed.
